(** * Session management of the Smart Library frontend

    A shallow embedding of [src/contexts/AuthContext.tsx] (the [AuthProvider]
    component) together with the part of the API client it calls, and the
    properties of the session manager established on it.

    Modelling conventions.
    - JavaScript strings are Rocq strings (code units below 256).
    - JavaScript numbers that occur here are millisecond timestamps returned
      by [Date.now()] and differences of two of them: integers far below
      2^53, on which double arithmetic is exact.  They are modelled in [Z].
    - [window.localStorage] is a finite map from strings to strings.
    - An [async] function is cut at each [await]: the part before it runs
      when the function is called and leaves a task in flight; the part after
      it runs when the environment delivers the reply of that task.  The
      tasks in flight form a multiset, settled in any order.  The event loop
      processes one event at a time.
    - The identity provider belongs to the environment.  Whether it holds
      a session and whether its server can be reached are fields of the
      state that the component never reads: they change with the events the
      provider reports and when a sign-out settles. *)

From Stdlib Require Import ZArith NArith Ascii String List.
From stdpp Require Import base tactics option list gmap gmultiset.
From stdpp Require Import strings pretty.

Local Open Scope string_scope.
Local Open Scope list_scope.
Local Open Scope Z_scope.

(** ** JavaScript primitives used by the component *)

Module JS.

(** [ToBoolean] on a string: only the empty string is falsy. *)
Definition truthy (s : string) : bool :=
  match s with EmptyString => false | String _ _ => true end.

(** [ToBoolean] on a value that is a string, [null] or [undefined]. *)
Definition truthy_opt (o : option string) : bool :=
  match o with Some s => truthy s | None => false end.

(** [a || b] where [a] is a string or [null]. *)
Definition or_else (a : option string) (b : string) : string :=
  match a with
  | Some s => if truthy s then s else b
  | None => b
  end.

(** [Number.prototype.toString] on an integer of magnitude below 10^21 (every
    timestamp is): decimal digits, with a leading minus sign for a negative
    one. *)
Definition toString (n : Z) : string := pretty n.

(** White space skipped by [parseInt] (the code units below 256 of
    [StrWhiteSpaceChar]). *)
Definition is_space (c : ascii) : bool :=
  let n := N_of_ascii c in
  ((9 <=? n) && (n <=? 13) || (n =? 32) || (n =? 160))%N.

(** Value of [c] as a digit in the given radix, if it is one. *)
Definition digit_val (radix : N) (c : ascii) : option N :=
  let n := N_of_ascii c in
  let v :=
    if ((48 <=? n) && (n <=? 57))%N then Some (n - 48)%N
    else if ((97 <=? n) && (n <=? 122))%N then Some (n - 87)%N
    else if ((65 <=? n) && (n <=? 90))%N then Some (n - 55)%N
    else None in
  match v with
  | Some d => if (d <? radix)%N then Some d else None
  | None => None
  end.

(** Value of the longest prefix of [s] made of digits of the radix. *)
Fixpoint scan_digits (radix acc : N) (s : string) : N :=
  match s with
  | String c s' =>
      match digit_val radix c with
      | Some d => scan_digits radix (acc * radix + d) s'
      | None => acc
      end
  | EmptyString => acc
  end.

Fixpoint trim_start (s : string) : string :=
  match s with
  | String c s' => if is_space c then trim_start s' else s
  | EmptyString => s
  end.

Definition strip_sign (s : string) : bool * string :=
  match s with
  | String c r =>
      if Ascii.eqb c "-" then (true, r)
      else if Ascii.eqb c "+" then (false, r)
      else (false, s)
  | EmptyString => (false, s)
  end.

Definition strip_hex_prefix (s : string) : N * string :=
  match s with
  | String c0 (String c1 r) =>
      if Ascii.eqb c0 "0" && (Ascii.eqb c1 "x" || Ascii.eqb c1 "X")
      then (16%N, r) else (10%N, s)
  | _ => (10%N, s)
  end.

(** [parseInt(s)] with no radix argument; [None] stands for [NaN]. *)
Definition parseInt (s : string) : option Z :=
  let '(neg, s1) := strip_sign (trim_start s) in
  let '(radix, s2) := strip_hex_prefix s1 in
  match s2 with
  | String c _ =>
      match digit_val radix c with
      | Some _ =>
          let v := Z.of_N (scan_digits radix 0 s2) in
          Some (if neg then - v else v)
      | None => None
      end
  | EmptyString => None
  end.

(** [a - b > c] where [b] may be [NaN]: a comparison with [NaN] is false. *)
Definition elapsed_gt (now : Z) (since : option Z) (limit : Z) : bool :=
  match since with
  | Some t => limit <? now - t
  | None => false
  end.

End JS.

(** ** Data model *)

(** [interface User].  The role is [response.role] as the backend sent it. *)
Record User := mkUser {
  user_id : string;
  email : string;
  name : string;
  role : string
}.

(** What [api.validate()] resolves to. *)
Record ValidateResponse := mkValidateResponse {
  v_user_id : string;
  v_email : string;
  v_role : string;
  v_name : string
}.

(** What [api.login(email, password)] resolves to. *)
Record LoginResponse := mkLoginResponse {
  l_access_token : string;
  l_role : string;
  l_user_id : string;
  l_email : string;
  l_name : string
}.

(** A settled promise: [request] throws [new Error(message)] on a response
    that is not ok. *)
Inductive Settled (A : Type) :=
| Fulfilled (a : A)
| Rejected (message : string).
Arguments Fulfilled {A} a.
Arguments Rejected {A} message.

(** The [await] points of the component: an asynchronous function that has
    reached one of them is a task in flight. *)
Inductive Task :=
| TCheckAuth       (* checkAuth: await api.validate() *)
| TSignedIn        (* SIGNED_IN handler: await api.validate() *)
| TSignedInCatch   (* its catch block: await supabase.auth.signOut() *)
| TLogin (expectedRole : option string)
                   (* login: await api.login(email, password) *)
| TSignup          (* signup: await api.signup(data) *)
| TLogout.         (* logout: await supabase.auth.signOut() *)

(** What the environment delivers to a task in flight.  The value of
    [supabase.auth.signOut()] is not used by the component. *)
Inductive Reply :=
| RValidate (r : Settled ValidateResponse)
| RLogin (r : Settled LoginResponse)
| RSignup (r : Settled unit)
| RSignOut.

Global Instance Task_eq_dec : EqDecision Task.
Proof. solve_decision. Defined.

Definition Task_code (t : Task) : nat + option string :=
  match t with
  | TCheckAuth => inl 0%nat
  | TSignedIn => inl 1%nat
  | TSignedInCatch => inl 2%nat
  | TSignup => inl 3%nat
  | TLogout => inl 4%nat
  | TLogin r => inr r
  end.

Definition Task_decode (c : nat + option string) : Task :=
  match c with
  | inl 0%nat => TCheckAuth
  | inl 1%nat => TSignedIn
  | inl 2%nat => TSignedInCatch
  | inl 3%nat => TSignup
  | inl _ => TLogout
  | inr r => TLogin r
  end.

Global Instance Task_countable : Countable Task.
Proof. apply (inj_countable' Task_code Task_decode). by intros []. Defined.

(** Calls that leave the component, in the order they are made (a history
    kept beside the state; the component does not read it). *)
Inductive Effect :=
| CallValidate (bearer : option string)
| CallLogin (email password : string)
| CallSignup
| CallSignOut
| SetItem (key value : string)
| RemoveItem (key : string)
| Push (path : string)
| Awaited (t : Task) (r : Reply).

Record World := mkWorld {
  user : option User;                 (* useState<User | null>(null) *)
  loading : bool;                     (* useState(true) *)
  lastActivity : Z;                   (* useState(Date.now()) *)
  storage : gmap string string;       (* window.localStorage *)
  pathname : string;                  (* window.location.pathname *)
  clock : Z;                          (* what Date.now() returns *)
  provider_session : bool;            (* the provider holds a session *)
  provider_online : bool;             (* the provider's server can be reached *)
  mounted : bool;                     (* the mount effect has run *)
  pending : gmultiset Task;           (* tasks in flight *)
  log : list Effect                   (* history of calls, oldest first *)
}.

Definition set_user (u : option User) (w : World) : World :=
  mkWorld u (loading w) (lastActivity w) (storage w)
          (pathname w) (clock w) (provider_session w) (provider_online w)
          (mounted w) (pending w) (log w).
Definition set_loading (b : bool) (w : World) : World :=
  mkWorld (user w) b (lastActivity w) (storage w)
          (pathname w) (clock w) (provider_session w) (provider_online w)
          (mounted w) (pending w) (log w).
Definition set_lastActivity (t : Z) (w : World) : World :=
  mkWorld (user w) (loading w) t (storage w)
          (pathname w) (clock w) (provider_session w) (provider_online w)
          (mounted w) (pending w) (log w).
Definition set_storage (m : gmap string string) (w : World) : World :=
  mkWorld (user w) (loading w) (lastActivity w) m
          (pathname w) (clock w) (provider_session w) (provider_online w)
          (mounted w) (pending w) (log w).
Definition set_pathname (p : string) (w : World) : World :=
  mkWorld (user w) (loading w) (lastActivity w) (storage w)
          p (clock w) (provider_session w) (provider_online w)
          (mounted w) (pending w) (log w).
Definition set_clock (t : Z) (w : World) : World :=
  mkWorld (user w) (loading w) (lastActivity w) (storage w)
          (pathname w) t (provider_session w) (provider_online w)
          (mounted w) (pending w) (log w).
Definition set_provider_session (b : bool) (w : World) : World :=
  mkWorld (user w) (loading w) (lastActivity w) (storage w)
          (pathname w) (clock w) b (provider_online w)
          (mounted w) (pending w) (log w).
Definition set_provider_online (b : bool) (w : World) : World :=
  mkWorld (user w) (loading w) (lastActivity w) (storage w)
          (pathname w) (clock w) (provider_session w) b
          (mounted w) (pending w) (log w).
Definition set_mounted (b : bool) (w : World) : World :=
  mkWorld (user w) (loading w) (lastActivity w) (storage w)
          (pathname w) (clock w) (provider_session w) (provider_online w)
          b (pending w) (log w).
Definition set_pending (l : gmultiset Task) (w : World) : World :=
  mkWorld (user w) (loading w) (lastActivity w) (storage w)
          (pathname w) (clock w) (provider_session w) (provider_online w)
          (mounted w) l (log w).
Definition set_log (l : list Effect) (w : World) : World :=
  mkWorld (user w) (loading w) (lastActivity w) (storage w)
          (pathname w) (clock w) (provider_session w) (provider_online w)
          (mounted w) (pending w) l.

(** ** A state and exception monad for the component's code *)

Inductive Outcome (A : Type) :=
| Ret (a : A)
| Throw (message : string).
Arguments Ret {A} a.
Arguments Throw {A} message.

Definition M (A : Type) : Type := World -> Outcome A * World.

Definition ret {A} (a : A) : M A := fun w => (Ret a, w).
Definition throw {A} (message : string) : M A := fun w => (Throw message, w).
Definition bind {A B} (m : M A) (k : A -> M B) : M B :=
  fun w => match m w with
           | (Ret a, w') => k a w'
           | (Throw e, w') => (Throw e, w')
           end.

(** [try { body } catch (error) { handler(error.message) }] *)
Definition try_catch {A} (body : M A) (handler : string -> M A) : M A :=
  fun w => match body w with
           | (Ret a, w') => (Ret a, w')
           | (Throw e, w') => handler e w'
           end.

(** [try { body } finally { final }] *)
Definition try_finally {A} (body : M A) (final : M unit) : M A :=
  fun w => let '(r, w') := body w in
           match final w' with
           | (Ret _, w'') => (r, w'')
           | (Throw e, w'') => (Throw e, w'')
           end.

Definition exec {A} (m : M A) (w : World) : World := snd (m w).
Definition outcome {A} (m : M A) (w : World) : Outcome A := fst (m w).

Declare Scope M_scope.
Delimit Scope M_scope with M.
Bind Scope M_scope with M.
Notation "x <- m ; k" := (bind m (fun x => k))
  (at level 20, m at level 100, k at level 200, only parsing) : M_scope.
Notation "m ;; k" := (bind m (fun _ => k))
  (at level 100, k at level 200, right associativity) : M_scope.
Local Open Scope M_scope.

(** [await p] for a promise the environment has settled. *)
Definition await {A} (p : Settled A) : M A :=
  match p with
  | Fulfilled a => ret a
  | Rejected e => throw e
  end.

Definition emit (e : Effect) : M unit :=
  fun w => (Ret tt, set_log (log w ++ [e]) w).
Definition spawn (t : Task) : M unit :=
  fun w => (Ret tt, set_pending (pending w ⊎ {[+ t +]}) w).

Definition setUser (u : option User) : M unit :=
  fun w => (Ret tt, set_user u w).
Definition setLoading (b : bool) : M unit :=
  fun w => (Ret tt, set_loading b w).
Definition setLastActivity (t : Z) : M unit :=
  fun w => (Ret tt, set_lastActivity t w).
Definition getLastActivity : M Z := fun w => (Ret (lastActivity w), w).
Definition Date_now : M Z := fun w => (Ret (clock w), w).
Definition location_pathname : M string := fun w => (Ret (pathname w), w).

(** [localStorage.getItem], [setItem] and [removeItem]. *)
Definition getItem (k : string) : M (option string) :=
  fun w => (Ret (storage w !! k), w).
Definition setItem (k v : string) : M unit :=
  fun w => (Ret tt, set_log (log w ++ [SetItem k v])
                      (set_storage (<[k := v]> (storage w)) w)).
Definition removeItem (k : string) : M unit :=
  fun w => (Ret tt, set_log (log w ++ [RemoveItem k])
                      (set_storage (delete k (storage w)) w)).

(** [router.push(path)] *)
Definition router_push (path : string) : M unit :=
  fun w => (Ret tt, set_log (log w ++ [Push path]) (set_pathname path w)).

(** ** The API client ([lib/api]) as the component uses it *)

(** [getToken()] followed by the header logic of [request]: the bearer
    header is sent only when the stored token is truthy. *)
Definition bearer_of (token : option string) : option string :=
  match token with
  | Some t => if JS.truthy t then Some t else None
  | None => None
  end.

(** [api.validate()]: the request leaves with the token stored at the time
    of the call; the caller is suspended on the promise as task [t]. *)
Definition api_validate (t : Task) : M unit :=
  token <- getItem "access_token";
  emit (CallValidate (bearer_of token));;
  spawn t.

Definition api_login (email password : string) (t : Task) : M unit :=
  emit (CallLogin email password);;
  spawn t.

Definition api_signup (t : Task) : M unit :=
  emit CallSignup;;
  spawn t.

(** ** The identity provider ([lib/supabase]) *)

(** [supabase.auth.signOut()]: the call is made, the caller is suspended. *)
Definition supabase_signOut (t : Task) : M unit :=
  emit CallSignOut;;
  spawn t.

(** The awaited sign-out has settled.  The promise resolves to an object
    [{ error }], which the component does not look at.  The provider removes
    its session when its server could be reached; when it could not, the
    promise resolves with the error set and the session is kept. *)
Definition signOut_settled : M unit :=
  fun w => (Ret tt, set_provider_session
                      (provider_session w && negb (provider_online w)) w).

(** Events of [supabase.auth.onAuthStateChange]; [session] is the session
    object of the event ([null] when there is none), of which the component
    reads [access_token]. *)
Inductive AuthEvent :=
| SIGNED_IN (session : option string)
| SIGNED_OUT
| OTHER_AUTH_EVENT.

(** What an event says about the provider itself: it holds a session when
    it reports a sign-in with one, and none when it reports a sign-out. *)
Definition provider_reports (a : AuthEvent) (w : World) : World :=
  match a with
  | SIGNED_IN (Some _) => set_provider_session true w
  | SIGNED_OUT => set_provider_session false w
  | _ => w
  end.

(** ** The component *)

(** The four [removeItem] calls that occur, in this order, in [checkAuth],
    in the [SIGNED_IN] handler, in the [SIGNED_OUT] handler and in [logout]. *)
Definition purge_storage : M unit :=
  removeItem "access_token";;
  removeItem "user_role";;
  removeItem "user_name";;
  removeItem "login_time".

(** [if (!localStorage.getItem('login_time'))
       localStorage.setItem('login_time', Date.now().toString())] *)
Definition stamp_login_time_if_missing : M unit :=
  stored <- getItem "login_time";
  if negb (JS.truthy_opt stored)
  then now <- Date_now; setItem "login_time" (JS.toString now)
  else ret tt.

(** [checkAuth], up to its [await]. *)
Definition checkAuth : M unit :=
  token <- getItem "access_token";
  if negb (JS.truthy_opt token)
  then setLoading false
  else api_validate TCheckAuth.

(** [checkAuth], from the [await] on. *)
Definition checkAuth_resume (reply : Settled ValidateResponse) : M unit :=
  try_finally
    (try_catch
       (response <- await reply;
        stored_name <- getItem "user_name";
        setUser (Some {| user_id := v_user_id response;
                         email := v_email response;
                         name := JS.or_else stored_name (v_email response);
                         role := v_role response |});;
        stamp_login_time_if_missing)
       (fun error => purge_storage))
    (setLoading false).

(** [logout], up to its [await]. *)
Definition logout : M unit :=
  supabase_signOut TLogout.

(** [logout], from the [await] on. *)
Definition logout_resume : M unit :=
  signOut_settled;;
  purge_storage;;
  setUser None;;
  router_push "/login".

(** The role gate of [login]:
    [if (expectedRole && response.role !== expectedRole) throw new Error(..)] *)
Definition check_expected_role (expectedRole : option string) (r : string)
  : M unit :=
  match expectedRole with
  | Some expected =>
      if JS.truthy expected && negb (String.eqb r expected)
      then throw ("Access denied: You are not authorized to login as a "
                    ++ expected)
      else ret tt
  | None => ret tt
  end.

(** [login], up to its [await]. *)
Definition login (email password : string) (expectedRole : option string)
  : M unit :=
  api_login email password (TLogin expectedRole).

(** [login], from the [await] on. *)
Definition login_resume (expectedRole : option string)
    (reply : Settled LoginResponse) : M unit :=
  try_catch
    (response <- await reply;
     check_expected_role expectedRole (l_role response);;
     setItem "access_token" (l_access_token response);;
     setItem "user_role" (l_role response);;
     setItem "user_name" (l_name response);;
     now <- Date_now;
     setItem "login_time" (JS.toString now);;
     setUser (Some {| user_id := l_user_id response;
                      email := l_email response;
                      name := l_name response;
                      role := l_role response |});;
     if String.eqb (l_role response) "admin"
     then router_push "/admin/dashboard"
     else router_push "/student/dashboard")
    (fun message =>
       throw (if JS.truthy message then message else "Login failed")).

(** [signup], up to and from its [await]. *)
Definition signup : M unit :=
  api_signup TSignup.

Definition signup_resume (reply : Settled unit) : M unit :=
  try_catch
    (await reply)
    (fun message =>
       throw (if JS.truthy message then message else "Signup failed")).

(** The [SIGNED_IN] branch of the auth listener, up to
    [await api.validate()]. *)
Definition onSignedIn (access_token : string) : M unit :=
  setLoading true;;
  stamp_login_time_if_missing;;
  setItem "access_token" access_token;;
  api_validate TSignedIn.

(** The [SIGNED_IN] branch from [await api.validate()] on.  When the promise
    is rejected the [catch] block suspends again, on the provider sign-out;
    the [finally] block runs once the [catch] block is done. *)
Definition onSignedIn_resume (reply : Settled ValidateResponse) : M unit :=
  match reply with
  | Fulfilled response =>
      setUser (Some {| user_id := v_user_id response;
                       email := v_email response;
                       name := v_name response;
                       role := v_role response |});;
      setItem "user_role" (v_role response);;
      setItem "user_name" (v_name response);;
      path <- location_pathname;
      (if String.eqb path "/login" || String.eqb path "/signup"
       then if String.eqb (v_role response) "admin"
            then router_push "/admin/dashboard"
            else router_push "/student/dashboard"
       else ret tt);;
      setLoading false
  | Rejected error =>
      supabase_signOut TSignedInCatch
  end.

(** The rest of the [catch] block of the [SIGNED_IN] branch, then [finally]. *)
Definition onSignedIn_catch_resume : M unit :=
  signOut_settled;;
  purge_storage;;
  setUser None;;
  setLoading false;;
  setLoading false.

(** The [SIGNED_OUT] branch of the auth listener. *)
Definition onSignedOut : M unit :=
  setUser None;;
  purge_storage;;
  router_push "/login".

Definition onAuthStateChange (e : AuthEvent) : M unit :=
  match e with
  | SIGNED_IN (Some access_token) => onSignedIn access_token
  | SIGNED_IN None => ret tt
  | SIGNED_OUT => onSignedOut
  | OTHER_AUTH_EVENT => ret tt
  end.

(** Listener of the window event ['auth:unauthorized']. *)
Definition handleUnauthorized : M unit := logout.

(** Listener of mousemove, keypress, click and scroll. *)
Definition handleActivity : M unit :=
  now <- Date_now;
  setLastActivity now.

Definition INACTIVITY_LIMIT : Z := 10 * 60 * 1000.
Definition MAX_SESSION : Z := 30 * 60 * 1000.

(** The callback of [setInterval(..., 10000)]. *)
Definition checkTimers : M unit :=
  now <- Date_now;
  last <- getLastActivity;
  (if INACTIVITY_LIMIT <? now - last then logout else ret tt);;
  loginTimeStr <- getItem "login_time";
  match loginTimeStr with
  | Some str =>
      if JS.truthy str
      then
        let loginTime := JS.parseInt str in
        if JS.elapsed_gt now loginTime MAX_SESSION then logout else ret tt
      else ret tt
  | None => ret tt
  end.

(** [isAuthenticated: !!user], [isStudent] and [isAdmin] of the context
    value. *)
Definition isAuthenticated (w : World) : bool :=
  match user w with Some _ => true | None => false end.
Definition isStudent (w : World) : bool :=
  match user w with Some u => String.eqb (role u) "student" | None => false end.
Definition isAdmin (w : World) : bool :=
  match user w with Some u => String.eqb (role u) "admin" | None => false end.

(** ** The event loop *)

(** The continuation of a task for a reply of the matching kind. *)
Definition resume (t : Task) (r : Reply) : option (M unit) :=
  match t, r with
  | TCheckAuth, RValidate p => Some (checkAuth_resume p)
  | TSignedIn, RValidate p => Some (onSignedIn_resume p)
  | TSignedInCatch, RSignOut => Some onSignedIn_catch_resume
  | TLogin expectedRole, RLogin p => Some (login_resume expectedRole p)
  | TSignup, RSignup p => Some (signup_resume p)
  | TLogout, RSignOut => Some logout_resume
  | _, _ => None
  end.

Inductive Event :=
| EvMount                     (* the effect with no dependencies runs *)
| EvClock (t : Z)             (* time passes *)
| EvNavigate (path : string)  (* the user follows a link *)
| EvAuth (e : AuthEvent)      (* the provider reports an event *)
| EvOnline (b : bool)         (* the provider's server comes or goes *)
| EvUnauthorized              (* window event 'auth:unauthorized' *)
| EvActivity                  (* mousemove, keypress, click or scroll *)
| EvTick                      (* the interval fires *)
| EvLogin (email password : string) (expectedRole : option string)
| EvSignup
| EvLogout
| EvReply (t : Task) (r : Reply).
                              (* a promise in flight settles *)

(** One turn of the event loop; [None] when the event cannot occur in [w].
    The auth listener, the listener of 'auth:unauthorized' and the callers
    of the context functions exist once the component is mounted; the
    activity listeners and the interval exist while [user] is not null (the
    second effect returns at once when it is).  An event of the provider
    first tells what the provider holds, then runs the listener. *)
Definition step (e : Event) (w : World) : option World :=
  match e with
  | EvMount =>
      if mounted w then None else Some (exec checkAuth (set_mounted true w))
  | EvClock t => Some (set_clock t w)
  | EvNavigate path => Some (set_pathname path w)
  | EvAuth a =>
      if mounted w
      then Some (exec (onAuthStateChange a) (provider_reports a w))
      else None
  | EvOnline b => Some (set_provider_online b w)
  | EvUnauthorized =>
      if mounted w then Some (exec handleUnauthorized w) else None
  | EvActivity =>
      if isAuthenticated w then Some (exec handleActivity w) else None
  | EvTick =>
      if isAuthenticated w then Some (exec checkTimers w) else None
  | EvLogin e p r =>
      if mounted w then Some (exec (login e p r) w) else None
  | EvSignup =>
      if mounted w then Some (exec signup w) else None
  | EvLogout =>
      if mounted w then Some (exec logout w) else None
  | EvReply t r =>
      match resume t r with
      | Some k =>
          if decide (t ∈ pending w)
          then Some (exec k (set_log (log w ++ [Awaited t r])
                               (set_pending (pending w ∖ {[+ t +]}) w)))
          else None
      | None => None
      end
  end.

Fixpoint run (es : list Event) (w : World) : option World :=
  match es with
  | [] => Some w
  | e :: es' =>
      match step e w with
      | Some w' => run es' w'
      | None => None
      end
  end.

(** The state in which the component is created: [useState(null)],
    [useState(true)], [useState(Date.now())]; storage, location and the
    provider are whatever earlier page loads left. *)
Definition initial (w : World) : Prop :=
  user w = None /\ loading w = true /\ lastActivity w = clock w /\
  mounted w = false /\ pending w = ∅ /\ log w = [].

(** A freshly created component whose provider can be reached. *)
Definition fresh_world (st : gmap string string) (path : string) (t : Z)
    (prov : bool) : World :=
  mkWorld None true t st path t prov true false ∅ [].

(** ** Vocabulary of the properties *)

(** The four keys the component keeps in durable storage: bearer credential,
    role, display name and login timestamp. *)
Definition session_keys : list string :=
  ["access_token"; "user_role"; "user_name"; "login_time"].

Definition keys_absent (st : gmap string string) : Prop :=
  Forall (fun k => st !! k = None) session_keys.

Definition purged (st : gmap string string) : gmap string string :=
  delete "login_time" (delete "user_name" (delete "user_role"
    (delete "access_token" st))).

(** Equality of two worlds up to the history of calls. *)
Definition same_state (w1 w2 : World) : Prop :=
  set_log [] w1 = set_log [] w2.

(** [logout()] called in [w] and run to its end with no other event between
    the call and the completion of the provider sign-out. *)
Definition logout_to_completion (w : World) : option World :=
  step (EvReply TLogout RSignOut) (exec logout w).

(** The error [login] throws at its role gate. *)
Definition is_access_denied (message : string) : bool :=
  String.prefix "Access denied" message.

(** Decimal digits, for the round trip of the login timestamp. *)
Definition dec_digit (c : ascii) : Prop := is_Some (JS.digit_val 10 c).

Fixpoint all_dec (s : string) : Prop :=
  match s with
  | EmptyString => True
  | String c r => dec_digit c /\ all_dec r
  end.

(** Events that start an operation of the component, as opposed to those
    that only change its surroundings or settle a task already in flight. *)
Definition starts_operation (e : Event) : bool :=
  match e with
  | EvMount | EvAuth _ | EvUnauthorized | EvTick
  | EvLogin _ _ _ | EvSignup | EvLogout => true
  | EvClock _ | EvNavigate _ | EvOnline _ | EvActivity | EvReply _ _ =>
      false
  end.

(** States reachable from a freshly created component, under any
    interleaving of events. *)
Inductive reachable : World -> Prop :=
| reachable_init w : initial w -> reachable w
| reachable_step e w w' : reachable w -> step e w = Some w' -> reachable w'.

(** An operation may start only when no task is in flight. *)
Definition seq_enabled (e : Event) (w : World) : bool :=
  negb (starts_operation e) || bool_decide (pending w = ∅).

(** States reachable when every operation runs to its end before the next
    one starts. *)
Inductive reachable_seq : World -> Prop :=
| reachable_seq_init w : initial w -> reachable_seq w
| reachable_seq_step e w w' :
    reachable_seq w -> seq_enabled e w = true -> step e w = Some w' ->
    reachable_seq w'.

Fixpoint run_seq (es : list Event) (w : World) : option World :=
  match es with
  | [] => Some w
  | e :: es' =>
      if seq_enabled e w
      then match step e w with
           | Some w' => run_seq es' w'
           | None => None
           end
      else None
  end.

Definition settled_ok {A} (p : Settled A) : bool :=
  match p with Fulfilled _ => true | Rejected _ => false end.

(** The condition of the role gate of [login]. *)
Definition role_denied (expectedRole : option string) (r : string) : bool :=
  match expectedRole with
  | Some expected => JS.truthy expected && negb (String.eqb r expected)
  | None => false
  end.

(** What a reply says about the credential in storage: the verdict of
    [validate()], and a [login] the backend accepted and the role gate let
    through, which stores the credential the backend has just issued. *)
Definition verdict_of (e : Effect) : option bool :=
  match e with
  | Awaited TCheckAuth (RValidate p) => Some (settled_ok p)
  | Awaited TSignedIn (RValidate p) => Some (settled_ok p)
  | Awaited (TLogin expectedRole) (RLogin (Fulfilled response)) =>
      if role_denied expectedRole (l_role response) then None else Some true
  | _ => None
  end.

(** The most recent verdict in a history (oldest first). *)
Definition last_validation (h : list Effect) : option bool :=
  fold_left (fun acc e => match verdict_of e with
                          | Some b => Some b
                          | None => acc
                          end) h None.

Definition credential_present (w : World) : Prop :=
  is_Some (storage w !! "access_token").

(** The identity is set exactly when the credential is stored and its most
    recent validation succeeded. *)
Definition session_invariant (w : World) : Prop :=
  isAuthenticated w = true <->
  credential_present w /\ last_validation (log w) = Some true.

(** ** Sample inputs *)

(** A page load with a credential left in storage by an earlier visit. *)
Definition returning_visitor : World :=
  fresh_world {[ "access_token" := "tok-1" ]} "/student/dashboard" 1000 true.

(** A first visit, on the login page, with empty storage. *)
Definition first_visit : World :=
  fresh_world ∅ "/login" 1000 false.

Definition alice : ValidateResponse :=
  mkValidateResponse "u-1" "alice@example.org" "student" "Alice".

Definition admin_login : LoginResponse :=
  mkLoginResponse "tok-2" "admin" "u-2" "root@example.org" "Root".

(** A password login at time 1000 as an administrator, on a first visit. *)
Definition signed_in_at_1000 : World :=
  exec (login_resume None (Fulfilled admin_login))
       (set_mounted true first_visit).

(** Thirty-one minutes later, the user having been active all along. *)
Definition active_after_31_minutes : World :=
  set_lastActivity (1000 + 31 * 60 * 1000)
    (set_clock (1000 + 31 * 60 * 1000) signed_in_at_1000).

(** Eleven minutes later, with no activity since the login. *)
Definition idle_after_11_minutes : World :=
  set_clock (1000 + 11 * 60 * 1000) signed_in_at_1000.

(** A first visit followed by a password login that runs to its end. *)
Definition password_login_run : list Event :=
  [EvMount;
   EvLogin "root@example.org" "Passw0rd1" (Some "admin");
   EvClock 1500;
   EvReply (TLogin (Some "admin")) (RLogin (Fulfilled admin_login))].

Definition after_password_login : World :=
  default first_visit (run_seq password_login_run first_visit).



(** A page load with a stored credential: the provider reports a sign-out
    while the startup validation is in flight; the backend's approval of the
    credential arrives last. *)
Definition overtaken_validation_run : list Event :=
  [EvMount;
   EvAuth SIGNED_OUT;
   EvReply TCheckAuth (RValidate (Fulfilled alice))].

(** ** The invariant of runs without interleaving *)

(** The relation between identity, stored credential and last verdict that
    holds whenever no task is in flight. *)
Definition settled_inv (w : World) : Prop :=
  match user w with
  | Some _ =>
      credential_present w /\ last_validation (log w) = Some true
  | None =>
      storage w !! "access_token" = None \/ last_validation (log w) = None
  end.

(** What holds while the single operation under way is suspended: nothing
    in flight, or exactly the task of that operation (two for a timer check
    in which both limits were exceeded). *)
Definition suspended_inv (w : World) : Prop :=
  (pending w = ∅ /\ settled_inv w)
  \/ (pending w = {[+ TCheckAuth +]} /\ user w = None /\ credential_present w)
  \/ (pending w = {[+ TSignedIn +]} /\ credential_present w)
  \/ pending w = {[+ TSignedInCatch +]}
  \/ (exists r, pending w = {[+ TLogin r +]} /\ settled_inv w)
  \/ (pending w = {[+ TSignup +]} /\ settled_inv w)
  \/ pending w = {[+ TLogout +]}
  \/ pending w = {[+ TLogout; TLogout +]}.

Definition seq_inv (w : World) : Prop :=
  (mounted w = false -> pending w = ∅ /\ user w = None /\ log w = []) /\
  suspended_inv w.

(** Reduction of the monadic code, leaving the storage map symbolic. *)
Ltac msimpl :=
  cbn [exec outcome bind ret throw try_catch try_finally await emit spawn
       setUser setLoading setLastActivity getLastActivity Date_now
       location_pathname getItem setItem removeItem router_push
       api_validate api_login api_signup supabase_signOut signOut_settled
       purge_storage
       set_user set_loading set_lastActivity set_storage set_pathname
       set_clock set_provider_session set_provider_online set_mounted
       set_pending set_log
       user loading lastActivity storage pathname clock provider_session
       provider_online mounted pending log fst snd].

(** Exposes the test a branch of the code is waiting on. *)
Ltac mhead :=
  cbv beta iota delta
      [exec outcome bind ret throw try_catch try_finally await getItem
       getLastActivity Date_now location_pathname fst snd].

(** ** Relations kept by every piece of the component's code *)

(** [m] relates every state it is run in to the state it leaves, also when
    it throws. *)
Definition keeps (R : World -> World -> Prop) {A} (m : M A) : Prop :=
  forall w, R w (snd (m w)).

(** The routes the component navigates to. *)
Definition own_routes : list string :=
  ["/login"; "/admin/dashboard"; "/student/dashboard"].

(** A call in the history that stays within the component's remit: storage
    writes and removals on the four session keys, navigation to its own
    routes; calls to the backend and to the provider are not restricted. *)
Definition in_remit (e : Effect) : Prop :=
  match e with
  | SetItem k _ => k ∈ session_keys
  | RemoveItem k => k ∈ session_keys
  | Push path => path ∈ own_routes
  | _ => True
  end.

(** [w'] comes after [w]: the history has grown by calls within the remit
    and the storage entries under other keys are the same. *)
Definition within_remit (w w' : World) : Prop :=
  (exists h, log w' = log w ++ h /\ Forall in_remit h) /\
  (forall k, k ∉ session_keys -> storage w' !! k = storage w !! k).

(** ** The API client's request headers ([request] in [lib/api]) *)

(** The headers [request] sends, for the token [getToken()] returned and the
    [headers] of its [options] (a plain object, [None] when not given):
    the content type first, then [Object.assign] of the caller's headers,
    then the bearer header when the token is truthy. *)
Definition request_headers (token : option string)
    (options_headers : option (gmap string string)) : gmap string string :=
  let headers : gmap string string :=
    {[ "Content-Type" := "application/json" ]} in
  let headers :=
    match options_headers with
    | Some given => given ∪ headers
    | None => headers
    end in
  match token with
  | Some t =>
      if JS.truthy t
      then <["Authorization" := ("Bearer " ++ t)%string]> headers
      else headers
  | None => headers
  end.

(** The headers of a request made in state [w] ([getToken] reads the
    storage). *)
Definition request_headers_in (w : World)
    (options_headers : option (gmap string string)) : gmap string string :=
  request_headers (storage w !! "access_token") options_headers.

(** ** The student list of the admin page ([app/admin/students]) *)

Module Students.

(** [String.prototype.toLowerCase] on code units below 256. *)
Definition lower_char (c : ascii) : ascii :=
  let n := N_of_ascii c in
  if ((65 <=? n) && (n <=? 90) || (192 <=? n) && (n <=? 214)
      || (216 <=? n) && (n <=? 222))%N
  then ascii_of_N (n + 32) else c.

Fixpoint toLowerCase (s : string) : string :=
  match s with
  | EmptyString => EmptyString
  | String c r => String (lower_char c) (toLowerCase r)
  end.

(** [s.includes(needle)] *)
Fixpoint includes (s needle : string) : bool :=
  String.prefix needle s
  || match s with
     | String _ r => includes r needle
     | EmptyString => false
     end.

(** The fields of a student the page reads; [None] stands for a field that
    is missing or [null]. *)
Record Student := mkStudent {
  id : string;
  name : option string;
  email : option string
}.

(** The predicate of [students.filter(...)]. *)
Definition matches (searchQuery : string) (student : Student) : bool :=
  includes (toLowerCase (JS.or_else (name student) ""))
           (toLowerCase searchQuery)
  || includes (toLowerCase (JS.or_else (email student) ""))
              (toLowerCase searchQuery).

Definition filteredStudents (students : list Student) (searchQuery : string)
  : list Student :=
  List.filter (matches searchQuery) students.

End Students.

(** ** The announcement history of the admin page
       ([app/admin/notifications]) *)

Module Announcements.

(** [s.split(sep)] for a separator of one character. *)
Fixpoint split (sep : ascii) (s : string) : list string :=
  match s with
  | EmptyString => [EmptyString]
  | String c r =>
      if Ascii.eqb c sep then EmptyString :: split sep r
      else match split sep r with
           | h :: t => String c h :: t
           | [] => [String c EmptyString]
           end
  end.

(** The fields of an announcement the page shows; [None] stands for a
    field that is missing or [null]. *)
Record Announcement := mkAnnouncement {
  title : option string;
  message : option string
}.

(** [ann.message?.split(':')[i]] *)
Definition message_part (ann : Announcement) (i : nat) : option string :=
  match message ann with
  | Some m => nth_error (split ":" m) i
  | None => None
  end.

(** [ann.title || ann.message?.split(':')[0] || "No Title"] *)
Definition shown_title (ann : Announcement) : string :=
  JS.or_else (title ann) (JS.or_else (message_part ann 0) "No Title").

(** [ann.message?.split(':')[1] || ann.message]; [None] when the result is
    [undefined] and nothing is shown. *)
Definition shown_body (ann : Announcement) : option string :=
  match message_part ann 1 with
  | Some part => if JS.truthy part then Some part else message ann
  | None => message ann
  end.

(** Whether [c] occurs in [s]. *)
Fixpoint has_char (c : ascii) (s : string) : bool :=
  match s with
  | EmptyString => false
  | String c' r => Ascii.eqb c' c || has_char c r
  end.

End Announcements.

(** ** The resource filters of the content page ([fetchResources]) *)

(** The query parameters [fetchResources] builds from the three filters. *)
Definition resource_params (searchQuery filterSemester filterSubject : string)
  : gmap string string :=
  let params : gmap string string := ∅ in
  let params :=
    if JS.truthy searchQuery then <["title" := searchQuery]> params
    else params in
  let params :=
    if JS.truthy filterSemester && negb (String.eqb filterSemester "all")
    then <["semester" := filterSemester]> params else params in
  if JS.truthy filterSubject then <["subject" := filterSubject]> params
  else params.

(** ** The signup form ([app/signup]) *)

Module Signup.

(** [formData] of the page. *)
Record Form := mkForm {
  email : string;
  password : string;
  confirmPassword : string;
  name : string;
  role : string;
  student_id : string;
  department : string
}.

(** [/[lo-hi]/.test(s)] for a range of characters. *)
Fixpoint has_in_range (lo hi : N) (s : string) : bool :=
  match s with
  | EmptyString => false
  | String c r =>
      ((lo <=? N_of_ascii c) && (N_of_ascii c <=? hi))%N
      || has_in_range lo hi r
  end.

(** The checks of the [password] field of [signupSchema]. *)
Definition password_ok (p : string) : bool :=
  (8 <=? String.length p)%nat
  && has_in_range 65 90 p && has_in_range 97 122 p && has_in_range 48 57 p.

Section Schema.

(** The email check of the validation library, which is not part of the
    repository. *)
Variable is_email : string -> bool.

(** [signupSchema.safeParse(formData).success]: every field check and every
    refinement holds. *)
Definition schema_ok (f : Form) : bool :=
  (2 <=? String.length (name f))%nat
  && is_email (email f)
  && (String.eqb (role f) "student" || String.eqb (role f) "admin")
  && password_ok (password f)
  && String.eqb (password f) (confirmPassword f)
  && negb (String.eqb (role f) "student" && negb (JS.truthy (student_id f)))
  && negb (String.eqb (role f) "student" && negb (JS.truthy (department f))).

(** The argument [handleSignup] passes to [signup]. *)
Record Payload := mkPayload {
  p_email : string;
  p_password : string;
  p_role : string;
  p_name : string;
  p_student_id : option string;
  p_department : option string
}.

Definition payload_of (f : Form) : Payload :=
  {| p_email := email f;
     p_password := password f;
     p_role := role f;
     p_name := name f;
     p_student_id :=
       if String.eqb (role f) "student" then Some (student_id f) else None;
     p_department :=
       if String.eqb (role f) "student" then Some (department f) else None |}.

(** What [handleSignup] submits: nothing when validation fails (it sets
    the error and returns), the payload otherwise. *)
Definition submitted (f : Form) : option Payload :=
  if schema_ok f then Some (payload_of f) else None.

End Schema.

End Signup.

(** ** Further sample inputs *)

(** A returning visitor whose storage also holds an entry of another part
    of the application. *)
Definition themed_visitor : World :=
  fresh_world (<["theme" := "dark"]> {[ "access_token" := "tok-1" ]})
              "/student/dashboard" 1000 true.

(** Startup validation, approval, then a logout run to its end. *)
Definition visit_and_logout_run : list Event :=
  [EvMount;
   EvReply TCheckAuth (RValidate (Fulfilled alice));
   EvNavigate "/student/books";
   EvLogout;
   EvReply TLogout RSignOut].

(** A login page left open for eleven minutes before the login is sent. *)
Definition stale_login_page : World :=
  exec (login "root@example.org" "Passw0rd1" (Some "admin"))
       (set_clock (1000 + 11 * 60 * 1000) (set_mounted true first_visit)).

(** A student record with neither name nor email. *)
Definition nameless_student : Students.Student :=
  Students.mkStudent "s-7" None None.

Definition student_ada : Students.Student :=
  Students.mkStudent "s-1" (Some "Ada Lovelace") (Some "ada@example.org").

(** A filled-in signup form of a student. *)
Definition student_form : Signup.Form :=
  Signup.mkForm "ada@example.org" "Passw0rd1" "Passw0rd1" "Ada" "student"
                "S-100" "Mathematics".

(** * Properties *)

(** ** [parseInt] and [toString] *)

Example parseInt_dec : JS.parseInt "1700000000000" = Some 1700000000000.
Proof. reflexivity. Qed.
Example parseInt_ws_sign : JS.parseInt "  -42abc" = Some (-42).
Proof. reflexivity. Qed.
Example parseInt_hex : JS.parseInt "0x1A" = Some 26.
Proof. reflexivity. Qed.
Example parseInt_nan : JS.parseInt "abc" = None.
Proof. reflexivity. Qed.
Example toString_neg : JS.toString (-305) = "-305".
Proof. reflexivity. Qed.

Section ParseIntToString.

Lemma digit_val_pretty_char (d : N) :
  (d < 10)%N -> JS.digit_val 10 (pretty_N_char d) = Some d.
Proof.
  intros Hd.
  assert (d = 0 \/ d = 1 \/ d = 2 \/ d = 3 \/ d = 4 \/ d = 5 \/ d = 6 \/
          d = 7 \/ d = 8 \/ d = 9)%N as Hcases by lia.
  repeat (destruct Hcases as [-> | Hcases]; [reflexivity |]).
  subst d. reflexivity.
Qed.

Lemma dec_digit_range c : dec_digit c -> (48 <= N_of_ascii c <= 57)%N.
Proof.
  unfold dec_digit, JS.digit_val. intros [d Hd].
  destruct ((48 <=? N_of_ascii c) && (N_of_ascii c <=? 57))%N eqn:E.
  - apply andb_true_iff in E as [?%N.leb_le ?%N.leb_le]. lia.
  - repeat match type of Hd with
           | context [if ?b then _ else _] => destruct b eqn:?
           end; try discriminate.
    + apply andb_true_iff in Heqb as [?%N.leb_le ?%N.leb_le].
      apply N.ltb_lt in Heqb0. lia.
    + apply andb_true_iff in Heqb0 as [?%N.leb_le ?%N.leb_le].
      apply N.ltb_lt in Heqb1. lia.
Qed.

Lemma scan_pretty_go (x : N) :
  exists k : N, forall acc s,
    JS.scan_digits 10 acc (pretty_N_go x s)
    = JS.scan_digits 10 (acc * 10 ^ k + x) s.
Proof.
  induction (N.lt_wf_0 x) as [x _ IH].
  destruct (decide (x = 0)%N) as [-> | Hx].
  - exists 0%N. intros acc s. rewrite pretty_N_go_0. f_equal. lia.
  - destruct (IH (x `div` 10)%N) as [k Hk].
    { apply N.div_lt; lia. }
    exists (k + 1)%N. intros acc s.
    rewrite pretty_N_go_step by lia. rewrite Hk. simpl.
    rewrite digit_val_pretty_char by (apply N.mod_lt; lia).
    f_equal. rewrite N.pow_add_r.
    pose proof (N.div_mod x 10 ltac:(lia)). lia.
Qed.

Lemma scan_pretty (x : N) : JS.scan_digits 10 0 (pretty_N_go x "") = x.
Proof. destruct (scan_pretty_go x) as [k Hk]. rewrite Hk. simpl. lia. Qed.


Lemma pretty_go_all_dec (x : N) :
  forall s, all_dec s -> all_dec (pretty_N_go x s).
Proof.
  induction (N.lt_wf_0 x) as [x _ IH]. intros s Hs.
  destruct (decide (x = 0)%N) as [-> | Hx].
  - by rewrite pretty_N_go_0.
  - rewrite pretty_N_go_step by lia. apply IH.
    + apply N.div_lt; lia.
    + split; [| done]. unfold dec_digit.
      rewrite digit_val_pretty_char by (apply N.mod_lt; lia). eauto.
Qed.

Lemma pretty_go_nonempty (x : N) : forall s, s <> "" -> pretty_N_go x s <> "".
Proof.
  induction (N.lt_wf_0 x) as [x _ IH]. intros s Hs.
  destruct (decide (x = 0)%N) as [-> | Hx].
  - by rewrite pretty_N_go_0.
  - rewrite pretty_N_go_step by lia. apply IH; [apply N.div_lt; lia | done].
Qed.

Lemma dec_digit_not_space c : dec_digit c -> JS.is_space c = false.
Proof.
  intros H%dec_digit_range. unfold JS.is_space.
  repeat (apply orb_false_iff; split).
  - apply andb_false_iff. right. apply N.leb_gt. lia.
  - apply N.eqb_neq. lia.
  - apply N.eqb_neq. lia.
Qed.

Lemma dec_digit_neq c (c' : ascii) :
  dec_digit c -> (N_of_ascii c' < 48 \/ 57 < N_of_ascii c')%N ->
  Ascii.eqb c c' = false.
Proof.
  intros H%dec_digit_range Hc'.
  destruct (Ascii.eqb_spec c c') as [-> | _]; [lia | done].
Qed.

Lemma strip_hex_prefix_dec t : all_dec t -> JS.strip_hex_prefix t = (10%N, t).
Proof.
  destruct t as [| c [| c' r]]; [done | done |].
  intros (_ & Hc' & _). unfold JS.strip_hex_prefix.
  rewrite !(dec_digit_neq c') by (done || (right; vm_compute; done)).
  by rewrite andb_false_r.
Qed.

Lemma parseInt_digits t :
  t <> "" -> all_dec t -> JS.parseInt t = Some (Z.of_N (JS.scan_digits 10 0 t)).
Proof.
  intros Hne Hall. destruct t as [| c r]; [done |].
  pose proof Hall as [Hc _]. unfold JS.parseInt.
  cbn [JS.trim_start]. rewrite dec_digit_not_space by done.
  unfold JS.strip_sign.
  rewrite !(dec_digit_neq c) by (done || (left; vm_compute; done)).
  rewrite strip_hex_prefix_dec by done.
  destruct Hc as [d ->]. done.
Qed.

Lemma parseInt_minus_digits t :
  t <> "" -> all_dec t ->
  JS.parseInt (String "-" t) = Some (- Z.of_N (JS.scan_digits 10 0 t)).
Proof.
  intros Hne Hall. destruct t as [| c r]; [done |].
  pose proof Hall as [Hc _]. unfold JS.parseInt.
  cbn [JS.trim_start]. 
  replace (JS.is_space "-") with false by (vm_compute; done).
  unfold JS.strip_sign. replace (Ascii.eqb "-" "-") with true by done.
  rewrite strip_hex_prefix_dec by done.
  destruct Hc as [d ->]. done.
Qed.

Lemma pretty_pos_digits (p : positive) :
  pretty (Npos p) <> "" /\ all_dec (pretty (Npos p)) /\
  JS.scan_digits 10 0 (pretty (Npos p)) = Npos p.
Proof.
  unfold pretty, pretty_N. destruct (decide (N.pos p = 0)%N) as [| _]; [done |].
  split; [| split].
  - rewrite pretty_N_go_step by lia. by apply pretty_go_nonempty.
  - by apply pretty_go_all_dec.
  - apply scan_pretty.
Qed.

(** [parseInt] reads back what [toString] wrote. *)
Lemma parseInt_toString (n : Z) : JS.parseInt (JS.toString n) = Some n.
Proof.
  unfold JS.toString, pretty, pretty_Z. destruct n as [| p | p].
  - reflexivity.
  - destruct (pretty_pos_digits p) as (Hne & Hall & Hval).
    change (pretty p) with (pretty (Npos p)).
    rewrite parseInt_digits, Hval by done. done.
  - destruct (pretty_pos_digits p) as (Hne & Hall & Hval).
    change (pretty p) with (pretty (Npos p)).
    change ("-" +:+ pretty (N.pos p)) with (String "-" (pretty (N.pos p))).
    rewrite parseInt_minus_digits, Hval by done. done.
Qed.

Lemma toString_truthy (n : Z) : JS.truthy (JS.toString n) = true.
Proof.
  unfold JS.toString, pretty, pretty_Z.
  destruct n as [| p | p]; [done | | done].
  destruct (pretty_pos_digits p) as (Hne & _).
  change (pretty p) with (pretty (Npos p)).
  by destruct (pretty (N.pos p)).
Qed.

End ParseIntToString.

(** ** Logout *)

Lemma purged_lookup_key st k : k ∈ session_keys -> purged st !! k = None.
Proof.
  unfold session_keys, purged. intros Hk.
  repeat (apply elem_of_cons in Hk as [-> | Hk]);
    [..| by apply elem_of_nil in Hk];
    repeat first [ done
                 | rewrite lookup_delete_eq
                 | rewrite lookup_delete_ne by done ].
Qed.

Lemma purged_lookup_other st k : k ∉ session_keys -> purged st !! k = st !! k.
Proof.
  unfold session_keys, purged. intros Hk.
  rewrite !lookup_delete_ne; [done | ..]; intros <-; apply Hk.
  all: timeout 20 (repeat constructor).
Qed.

Lemma purged_keys_absent st : keys_absent (purged st).
Proof.
  unfold keys_absent. apply Forall_forall. intros k Hk.
  by apply purged_lookup_key.
Qed.

Lemma purged_idemp st : purged (purged st) = purged st.
Proof.
  apply map_eq. intros k. destruct (decide (k ∈ session_keys)) as [Hk | Hk].
  - by rewrite !purged_lookup_key.
  - by rewrite !purged_lookup_other.
Qed.

Lemma logout_resume_exec w :
  exec logout_resume w =
  mkWorld None (loading w) (lastActivity w) (purged (storage w)) "/login"
          (clock w)
          (provider_session w && negb (provider_online w)) (provider_online w)
          (mounted w) (pending w)
          (log w ++ [RemoveItem "access_token"; RemoveItem "user_role";
                     RemoveItem "user_name"; RemoveItem "login_time";
                     Push "/login"]).
Proof.
  unfold logout_resume. timeout 20 msimpl. 
  unfold purged. by rewrite <- !app_assoc.
Qed.

Lemma logout_to_completion_eq w :
  logout_to_completion w =
  Some (mkWorld None (loading w) (lastActivity w) (purged (storage w)) "/login"
          (clock w)
          (provider_session w && negb (provider_online w)) (provider_online w)
          (mounted w) (pending w)
          (log w ++ [CallSignOut; Awaited TLogout RSignOut;
                     RemoveItem "access_token"; RemoveItem "user_role";
                     RemoveItem "user_name"; RemoveItem "login_time";
                     Push "/login"])).
Proof.
  unfold logout_to_completion, step. cbn [resume].
  unfold logout at 2. msimpl.
  rewrite decide_True by multiset_solver.
  rewrite logout_resume_exec. msimpl. unfold logout. msimpl.
  f_equal. f_equal; [multiset_solver | by rewrite <- !app_assoc].
Qed.

(** C5. From every state (authenticated, validating or unauthenticated),
    [logout()] run to its end, that is, once the provider sign-out it awaits
    has settled, leaves the session unauthenticated ([user] is [null]) and
    the four storage keys (bearer credential, role, display name, login
    timestamp) absent together.  Until then the storage is as it was: no
    state has some of the four keys removed and others kept. *)
Theorem logout_clears_session (w : World) :
  storage (exec logout w) = storage w /\
  exists w', logout_to_completion w = Some w' /\
             user w' = None /\ isAuthenticated w' = false /\
             keys_absent (storage w') /\
             storage w' = purged (storage w).
Proof.
  split; [reflexivity |].
  eexists. split; [apply logout_to_completion_eq |].
  cbn [user storage]. unfold isAuthenticated. cbn [user].
  repeat split. apply purged_keys_absent.
Qed.

(** C6. [logout()] is idempotent: run twice in succession from any state it
    ends in the same state as run once (identity, storage, location,
    provider session, tasks in flight and every other field; only the
    history of calls grows). *)
Theorem logout_idempotent (w : World) :
  exists w1 w2, logout_to_completion w = Some w1 /\
                logout_to_completion w1 = Some w2 /\
                same_state w1 w2 /\
                user w2 = user w1 /\ storage w2 = storage w1 /\
                isAuthenticated w2 = isAuthenticated w1.
Proof.
  eexists. eexists. split; [apply logout_to_completion_eq |].
  split; [apply logout_to_completion_eq |].
  unfold same_state, isAuthenticated. msimpl.
  rewrite purged_idemp, <- andb_assoc, andb_diag. repeat split.
Qed.



(** ** Login *)

Lemma login_resume_denied w expected response :
  expected <> "" -> l_role response <> expected ->
  login_resume (Some expected) (Fulfilled response) w =
  (Throw ("Access denied: You are not authorized to login as a " ++ expected),
   w).
Proof.
  intros Hne Hrole.
  cbv beta iota delta
      [login_resume check_expected_role try_catch bind await ret].
  replace (JS.truthy expected) with true by (by destruct expected).
  replace (String.eqb (l_role response) expected) with false
    by (symmetry; by apply String.eqb_neq).
  reflexivity.
Qed.

(** C2 (as amended). When [login] is called with a non-empty [expectedRole]
    and the backend answers successfully with another role, [login] throws
    the access-denied error and commits nothing: identity, all storage keys,
    location and every other field are as before the call; the history gains
    the backend call and its reply and no storage write or navigation. *)
Theorem login_role_mismatch_denied (w : World) (em pw expected : string)
    (response : LoginResponse) :
  expected <> "" -> l_role response <> expected ->
  exists w' message,
    message = ("Access denied: You are not authorized to login as a "
                 ++ expected)%string /\
    step (EvReply (TLogin (Some expected)) (RLogin (Fulfilled response)))
         (exec (login em pw (Some expected)) w) = Some w' /\
    same_state w w' /\
    user w' = user w /\ storage w' = storage w /\
    log w' = log w ++ [CallLogin em pw;
                       Awaited (TLogin (Some expected))
                               (RLogin (Fulfilled response))] /\
    outcome (login_resume (Some expected) (Fulfilled response))
            (exec (login em pw (Some expected)) w) = Throw message /\
    is_access_denied message = true.
Proof.
  intros Hne Hrole.
  exists (set_log (log w ++ [CallLogin em pw;
                             Awaited (TLogin (Some expected))
                                     (RLogin (Fulfilled response))]) w).
  eexists. split; [reflexivity |].
  split; [| split; [| split; [| split; [| split; [| split]]]]].
  - unfold step. cbn [resume]. unfold login at 2. msimpl.
    rewrite decide_True by multiset_solver.
    unfold exec at 1. rewrite login_resume_denied by done.
    unfold login. msimpl. unfold set_log. msimpl.
    f_equal. f_equal; [multiset_solver | by rewrite <- app_assoc].
  - reflexivity.
  - reflexivity.
  - reflexivity.
  - reflexivity.
  - unfold outcome. by rewrite login_resume_denied.
  - reflexivity.
Qed.

Lemma login_role_mismatch_denied_witness :
  "student" <> "" /\ l_role admin_login <> "student" /\
  exists w' message,
    message = ("Access denied: You are not authorized to login as a "
                 ++ "student")%string /\
    step (EvReply (TLogin (Some "student")) (RLogin (Fulfilled admin_login)))
         (exec (login "a@b.com" "Passw0rd1" (Some "student")) first_visit)
      = Some w' /\
    same_state first_visit w' /\
    user w' = user first_visit /\ storage w' = storage first_visit /\
    log w' = log first_visit ++
               [CallLogin "a@b.com" "Passw0rd1";
                Awaited (TLogin (Some "student"))
                        (RLogin (Fulfilled admin_login))] /\
    outcome (login_resume (Some "student") (Fulfilled admin_login))
            (exec (login "a@b.com" "Passw0rd1" (Some "student")) first_visit)
      = Throw message /\
    is_access_denied message = true.
Proof.
  split; [discriminate |]. split; [discriminate |].
  apply (login_role_mismatch_denied first_visit "a@b.com" "Passw0rd1"
           "student" admin_login); discriminate.
Defined.

(** C2, as stated, fails when the [expectedRole] supplied is the empty
    string: the gate [expectedRole && ...] is skipped, the login goes through
    with the backend's role and the credential is stored. *)
Lemma login_empty_expected_role_accepted :
  l_role admin_login <> "" /\
  outcome (login_resume (Some "") (Fulfilled admin_login))
          (exec (login "a@b.com" "Passw0rd1" (Some "")) first_visit) = Ret tt /\
  isAuthenticated
    (exec (login_resume (Some "") (Fulfilled admin_login))
          (exec (login "a@b.com" "Passw0rd1" (Some "")) first_visit)) = true /\
  storage
    (exec (login_resume (Some "") (Fulfilled admin_login))
          (exec (login "a@b.com" "Passw0rd1" (Some "")) first_visit))
    !! "access_token" = Some "tok-2".
Proof.
  split; [discriminate |]. vm_compute. repeat split.
Qed.

(** ** Startup validation *)

Lemma fresh_world_initial st path t prov : initial (fresh_world st path t prov).
Proof. by repeat split. Qed.

Lemma stamp_login_time_exec w :
  exec stamp_login_time_if_missing w =
  if JS.truthy_opt (storage w !! "login_time") then w
  else set_log (log w ++ [SetItem "login_time" (JS.toString (clock w))])
         (set_storage
            (<["login_time" := JS.toString (clock w)]> (storage w)) w).
Proof.
  unfold stamp_login_time_if_missing.
  cbv beta iota delta [exec bind getItem snd].
  by destruct (JS.truthy_opt (storage w !! "login_time")).
Qed.

Lemma stamp_login_time_user w :
  user (exec stamp_login_time_if_missing w) = user w.
Proof.
  rewrite stamp_login_time_exec.
  by destruct (JS.truthy_opt (storage w !! "login_time")).
Qed.

Lemma checkAuth_exec w :
  exec checkAuth w =
  if JS.truthy_opt (storage w !! "access_token")
  then set_pending (pending w ⊎ {[+ TCheckAuth +]})
         (set_log
            (log w ++ [CallValidate (bearer_of (storage w !! "access_token"))])
            w)
  else set_loading false w.
Proof.
  unfold checkAuth. mhead.
  by destruct (JS.truthy_opt (storage w !! "access_token")).
Qed.

Lemma checkAuth_resume_ok_exec w response :
  exec (checkAuth_resume (Fulfilled response)) w =
  set_loading false
    (exec stamp_login_time_if_missing
       (set_user (Some {| user_id := v_user_id response;
                          email := v_email response;
                          name := JS.or_else (storage w !! "user_name")
                                             (v_email response);
                          role := v_role response |}) w)).
Proof.
  unfold checkAuth_resume.
  cbv beta iota delta [exec try_finally try_catch bind await ret getItem
                       setUser setLoading snd fst].
  destruct (stamp_login_time_if_missing _) as [[[] | e] w'] eqn:E; [done |].
  exfalso. revert E. unfold stamp_login_time_if_missing.
  cbv beta iota delta [bind getItem].
  by destruct (JS.truthy_opt _).
Qed.

Lemma checkAuth_resume_failed_exec w message :
  exec (checkAuth_resume (Rejected message)) w =
  mkWorld (user w) false (lastActivity w) (purged (storage w)) (pathname w)
          (clock w) (provider_session w)
          (provider_online w) (mounted w) (pending w)
          (log w ++ [RemoveItem "access_token"; RemoveItem "user_role";
                     RemoveItem "user_name"; RemoveItem "login_time"]).
Proof.
  unfold checkAuth_resume. msimpl. unfold purged. by rewrite <- !app_assoc.
Qed.

(** C10 (as amended). After a successful startup revalidation the display
    name of the identity is the stored display name when that key is present
    and not the empty string, and the email returned by the backend when the
    key is absent or holds the empty string; the [name] field of the
    backend's reply has no influence on the resulting state. *)
Theorem checkAuth_display_name (w : World) (uid em rl nm : string) :
  (exists shown,
     user (exec (checkAuth_resume
                   (Fulfilled (mkValidateResponse uid em rl nm))) w)
       = Some (mkUser uid em shown rl) /\
     ((exists stored, storage w !! "user_name" = Some stored /\
                      stored <> "" /\ shown = stored)
      \/ ((storage w !! "user_name" = None \/
           storage w !! "user_name" = Some "") /\ shown = em)))
  /\ forall nm',
       exec (checkAuth_resume (Fulfilled (mkValidateResponse uid em rl nm'))) w
       = exec (checkAuth_resume
                 (Fulfilled (mkValidateResponse uid em rl nm))) w.
Proof.
  split.
  - rewrite checkAuth_resume_ok_exec. cbn [user set_loading].
    rewrite stamp_login_time_user. cbn [user set_user v_user_id v_email v_role].
    eexists. split; [reflexivity |].
    destruct (storage w !! "user_name") as [[| c s] |] eqn:E; cbn.
    + right. split; [by right | done].
    + left. exists (String c s). by repeat split.
    + right. split; [by left | done].
  - intros nm'. by rewrite !checkAuth_resume_ok_exec.
Qed.

(** C10, as stated, fails when the display-name key is present with the
    empty string as its value: the identity then shows the backend's email. *)
Lemma checkAuth_empty_stored_name_shows_email :
  (<["user_name" := ""]> (storage returning_visitor)) !! "user_name" = Some ""
  /\ name <$> user (exec (checkAuth_resume (Fulfilled alice))
                     (set_storage (<["user_name" := ""]>
                                     (storage returning_visitor))
                                  returning_visitor))
     = Some "alice@example.org".
Proof. vm_compute. split; reflexivity. Qed.

(** C4 (as amended). When a credential is in storage at startup and the
    backend's [validate()] fails, the component ends unauthenticated with
    the identity null, the four keys removed and [loading] cleared, and the
    validation is not tried again (one call, nothing left in flight).  It
    does not navigate and does not sign out of the identity provider. *)
Theorem failed_startup_validation (w : World) (tok message : string) :
  initial w -> storage w !! "access_token" = Some tok -> tok <> "" ->
  exists w',
    run [EvMount; EvReply TCheckAuth (RValidate (Rejected message))] w
      = Some w' /\
    user w' = None /\ isAuthenticated w' = false /\ loading w' = false /\
    storage w' = purged (storage w) /\ keys_absent (storage w') /\
    pathname w' = pathname w /\
    provider_session w' = provider_session w /\
    pending w' = ∅ /\
    log w' = [CallValidate (Some tok);
              Awaited TCheckAuth (RValidate (Rejected message));
              RemoveItem "access_token"; RemoveItem "user_role";
              RemoveItem "user_name"; RemoveItem "login_time"].
Proof.
  intros (Hu & Hl & Ha & Hm & Hp & Hlog) Htok Hne.
  assert (JS.truthy tok = true) as Htruthy by (by destruct tok).
  eexists. split.
  - cbn [run step]. rewrite Hm, checkAuth_exec. msimpl.
    rewrite Htok. cbn [JS.truthy_opt bearer_of]. rewrite Htruthy.
    msimpl. cbn [resume]. rewrite Hp, Hlog.
    rewrite decide_True by multiset_solver.
    rewrite checkAuth_resume_failed_exec. msimpl. reflexivity.
  - unfold isAuthenticated. msimpl. rewrite Hu.
    repeat split; first [apply purged_keys_absent | multiset_solver].
Qed.

Lemma failed_startup_validation_witness :
  initial returning_visitor /\
  storage returning_visitor !! "access_token" = Some "tok-1" /\
  "tok-1" <> "" /\
  exists w',
    run [EvMount; EvReply TCheckAuth (RValidate (Rejected "Unauthorized"))]
        returning_visitor = Some w' /\
    user w' = None /\ isAuthenticated w' = false /\ loading w' = false /\
    storage w' = purged (storage returning_visitor) /\
    keys_absent (storage w') /\
    pathname w' = pathname returning_visitor /\
    provider_session w' = provider_session returning_visitor /\
    pending w' = ∅ /\
    log w' = [CallValidate (Some "tok-1");
              Awaited TCheckAuth (RValidate (Rejected "Unauthorized"));
              RemoveItem "access_token"; RemoveItem "user_role";
              RemoveItem "user_name"; RemoveItem "login_time"].
Proof.
  split; [apply fresh_world_initial |].
  split; [reflexivity |]. split; [discriminate |].
  apply (failed_startup_validation returning_visitor "tok-1" "Unauthorized").
  - apply fresh_world_initial.
  - reflexivity.
  - discriminate.
Defined.

(** C4, as stated, fails: after a failed startup validation the location is
    the one the page was loaded at and the provider session is kept, whereas
    [logout()] called in the same startup state navigates to the entry point
    and ends the provider session. *)
Lemma failed_startup_validation_is_not_logout :
  pathname <$> run [EvMount;
                    EvReply TCheckAuth (RValidate (Rejected "Unauthorized"))]
                   returning_visitor = Some "/student/dashboard" /\
  provider_session <$> run [EvMount;
                    EvReply TCheckAuth (RValidate (Rejected "Unauthorized"))]
                   returning_visitor = Some true /\
  pathname <$> run [EvMount; EvLogout; EvReply TLogout RSignOut]
                   returning_visitor = Some "/login" /\
  provider_session <$> run [EvMount; EvLogout; EvReply TLogout RSignOut]
                   returning_visitor = Some false.
Proof. vm_compute. repeat split. Qed.

(** ** Expiry timers *)

Lemma logout_exec w :
  exec logout w =
  set_pending (pending w ⊎ {[+ TLogout +]})
    (set_log (log w ++ [CallSignOut]) w).
Proof. reflexivity. Qed.

Lemma checkTimers_exec w :
  exec checkTimers w =
  exec (match storage w !! "login_time" with
        | Some str =>
            if JS.truthy str
               && JS.elapsed_gt (clock w) (JS.parseInt str) MAX_SESSION
            then logout else ret tt
        | None => ret tt
        end)
       (exec (if INACTIVITY_LIMIT <? clock w - lastActivity w
              then logout else ret tt) w).
Proof.
  unfold checkTimers. mhead.
  destruct (INACTIVITY_LIMIT <? clock w - lastActivity w);
    unfold logout, supabase_signOut; msimpl;
    (destruct (storage w !! "login_time") as [str |]; [| reflexivity]);
    (destruct (JS.truthy str); [| reflexivity]);
    destruct (JS.elapsed_gt _ _ _); reflexivity.
Qed.

(** Settling one [logout] in flight, in whatever state that happens. *)
Lemma logout_settles w :
  TLogout ∈ pending w ->
  exists w', step (EvReply TLogout RSignOut) w = Some w' /\
             user w' = None /\ isAuthenticated w' = false /\
             keys_absent (storage w') /\ pathname w' = "/login" /\
             provider_session w'
             = provider_session w && negb (provider_online w).
Proof.
  intros Hin. eexists. split.
  - unfold step. cbn [resume]. rewrite decide_True by done.
    rewrite logout_resume_exec. reflexivity.
  - unfold isAuthenticated. cbn [user storage pathname provider_session].
    repeat split. apply purged_keys_absent.
Qed.

(** C7. In every authenticated state with the login timestamp [T] in
    storage, a periodic check that runs when the clock is later than [T]
    plus thirty minutes calls [logout()], whatever the last activity time
    is; when that logout completes the session is unauthenticated. *)
Theorem max_session_forces_logout (w : World) (T : Z) :
  isAuthenticated w = true ->
  storage w !! "login_time" = Some (JS.toString T) ->
  T + MAX_SESSION < clock w ->
  exists w1,
    step EvTick w = Some w1 /\
    (multiplicity TLogout (pending w)
     < multiplicity TLogout (pending w1))%nat /\
    last (log w1) = Some CallSignOut /\
    exists w2,
      step (EvReply TLogout RSignOut) w1 = Some w2 /\
      user w2 = None /\ isAuthenticated w2 = false /\
      keys_absent (storage w2) /\ pathname w2 = "/login".
Proof.
  intros Hauth Hlt Hclock.
  assert (exists w1, step EvTick w = Some w1 /\
            (multiplicity TLogout (pending w)
             < multiplicity TLogout (pending w1))%nat /\
            last (log w1) = Some CallSignOut) as (w1 & Hstep & Hmul & Hlast).
  { eexists. split.
    - unfold step. rewrite Hauth. reflexivity.
    - rewrite checkTimers_exec, Hlt, toString_truthy, parseInt_toString.
      replace (JS.elapsed_gt (clock w) (Some T) MAX_SESSION) with true
        by (symmetry; apply Z.ltb_lt; lia).
      cbn [andb]. rewrite logout_exec. cbn [pending log set_pending set_log].
      split.
      + destruct (INACTIVITY_LIMIT <? clock w - lastActivity w);
          [rewrite logout_exec |]; msimpl;
          rewrite !multiplicity_disj_union, !multiplicity_singleton_eq; lia.
      + apply last_snoc. }
  exists w1. repeat (split; [done |]).
  destruct (logout_settles w1) as (w2 & ? & ? & ? & ? & ? & ?).
  { apply elem_of_multiplicity. lia. }
  exists w2. by repeat split.
Qed.

Lemma max_session_forces_logout_witness :
  isAuthenticated active_after_31_minutes = true /\
  lastActivity active_after_31_minutes = clock active_after_31_minutes /\
  storage active_after_31_minutes !! "login_time" = Some (JS.toString 1000) /\
  1000 + MAX_SESSION < clock active_after_31_minutes /\
  exists w1,
    step EvTick active_after_31_minutes = Some w1 /\
    (multiplicity TLogout (pending active_after_31_minutes)
     < multiplicity TLogout (pending w1))%nat /\
    last (log w1) = Some CallSignOut /\
    exists w2,
      step (EvReply TLogout RSignOut) w1 = Some w2 /\
      user w2 = None /\ isAuthenticated w2 = false /\
      keys_absent (storage w2) /\ pathname w2 = "/login".
Proof.
  split; [reflexivity |]. split; [reflexivity |].
  split; [reflexivity |]. split; [reflexivity |].
  apply (max_session_forces_logout active_after_31_minutes 1000); reflexivity.
Defined.

(** C8. In every authenticated state whose last activity time is [T], a
    periodic check that runs when the clock is later than [T] plus ten
    minutes calls [logout()]; when that logout completes the session has
    gone from authenticated to unauthenticated. *)
Theorem inactivity_forces_logout (w : World) (T : Z) :
  isAuthenticated w = true ->
  lastActivity w = T ->
  T + INACTIVITY_LIMIT < clock w ->
  exists w1,
    step EvTick w = Some w1 /\
    (multiplicity TLogout (pending w)
     < multiplicity TLogout (pending w1))%nat /\
    last (log w1) = Some CallSignOut /\
    exists w2,
      step (EvReply TLogout RSignOut) w1 = Some w2 /\
      user w2 = None /\ isAuthenticated w2 = false /\
      keys_absent (storage w2) /\ pathname w2 = "/login".
Proof.
  intros Hauth Hact Hclock.
  assert (exists w1, step EvTick w = Some w1 /\
            (multiplicity TLogout (pending w)
             < multiplicity TLogout (pending w1))%nat /\
            last (log w1) = Some CallSignOut) as (w1 & Hstep & Hmul & Hlast).
  { eexists. split.
    - unfold step. rewrite Hauth. reflexivity.
    - rewrite checkTimers_exec.
      replace (INACTIVITY_LIMIT <? clock w - lastActivity w) with true
        by (symmetry; apply Z.ltb_lt; lia).
      rewrite logout_exec.
      destruct (storage w !! "login_time") as [str |]; [| msimpl].
      + destruct (JS.truthy str && JS.elapsed_gt _ _ _);
          [rewrite logout_exec |]; msimpl.
        * split; [| apply last_snoc].
          rewrite !multiplicity_disj_union, !multiplicity_singleton_eq. lia.
        * split; [| apply last_snoc].
          rewrite !multiplicity_disj_union, !multiplicity_singleton_eq. lia.
      + split; [| apply last_snoc].
        rewrite !multiplicity_disj_union, !multiplicity_singleton_eq. lia. }
  exists w1. repeat (split; [done |]).
  destruct (logout_settles w1) as (w2 & ? & ? & ? & ? & ? & ?).
  { apply elem_of_multiplicity. lia. }
  exists w2. by repeat split.
Qed.

Lemma inactivity_forces_logout_witness :
  isAuthenticated idle_after_11_minutes = true /\
  lastActivity idle_after_11_minutes = 1000 /\
  1000 + INACTIVITY_LIMIT < clock idle_after_11_minutes /\
  exists w1,
    step EvTick idle_after_11_minutes = Some w1 /\
    (multiplicity TLogout (pending idle_after_11_minutes)
     < multiplicity TLogout (pending w1))%nat /\
    last (log w1) = Some CallSignOut /\
    exists w2,
      step (EvReply TLogout RSignOut) w1 = Some w2 /\
      user w2 = None /\ isAuthenticated w2 = false /\
      keys_absent (storage w2) /\ pathname w2 = "/login".
Proof.
  split; [reflexivity |]. split; [reflexivity |]. split; [reflexivity |].
  apply (inactivity_forces_logout idle_after_11_minutes 1000); reflexivity.
Defined.

(** ** A validation overtaken by a logout *)

(** C1 (as amended). When [logout()] completes while the startup
    [validate()] is still in flight, the logout leaves the session
    unauthenticated with the four keys absent, and the late reply of the
    validation is processed without looking at the current state: a failed
    one leaves the session unauthenticated and the keys absent; a successful
    one sets the identity again (shown under the email) and stamps a new
    login time, while the bearer credential, the role and the display name
    stay absent from storage. *)
Theorem late_validate_after_logout (w : World) (t : Z)
    (response : ValidateResponse) (message : string) :
  TLogout ∈ pending w -> TCheckAuth ∈ pending w ->
  exists w1,
    run [EvReply TLogout RSignOut; EvClock t] w = Some w1 /\
    user w1 = None /\ keys_absent (storage w1) /\
    TCheckAuth ∈ pending w1 /\
    (exists w2,
       step (EvReply TCheckAuth (RValidate (Rejected message))) w1 = Some w2 /\
       user w2 = None /\ keys_absent (storage w2)) /\
    (exists w3,
       step (EvReply TCheckAuth (RValidate (Fulfilled response))) w1
         = Some w3 /\
       user w3 = Some (mkUser (v_user_id response) (v_email response)
                              (v_email response) (v_role response)) /\
       storage w3 !! "access_token" = None /\
       storage w3 !! "user_role" = None /\
       storage w3 !! "user_name" = None /\
       storage w3 !! "login_time" = Some (JS.toString t)).
Proof.
  intros Hout Hval.
  assert (forall k, k ∈ session_keys -> purged (storage w) !! k = None) as Hk
    by (intros; by apply purged_lookup_key).
  eexists. split; [| split; [| split; [| split; [| split]]]].
  - cbn [run step resume]. rewrite decide_True by done.
    rewrite logout_resume_exec. reflexivity.
  - reflexivity.
  - apply purged_keys_absent.
  - cbn [pending set_clock]. multiset_solver.
  - eexists. split.
    + cbn [step resume]. rewrite decide_True by (cbn; multiset_solver).
      rewrite checkAuth_resume_failed_exec. reflexivity.
    + cbn [user storage set_clock set_log set_pending].
      rewrite purged_idemp. split; [done | apply purged_keys_absent].
  - eexists. split.
    + cbn [step resume]. rewrite decide_True by (cbn; multiset_solver).
      rewrite checkAuth_resume_ok_exec. reflexivity.
    + cbn [set_loading user storage]. rewrite stamp_login_time_exec.
      cbn [set_user set_clock set_log set_pending storage clock].
      rewrite (Hk "login_time") by (unfold session_keys; set_solver).
      cbn [JS.truthy_opt user storage set_log set_storage].
      rewrite (Hk "user_name") by (unfold session_keys; set_solver).
      cbn [JS.or_else].
      rewrite lookup_insert_eq, !lookup_insert_ne by done.
      rewrite !Hk by (unfold session_keys; set_solver). done.
Qed.

Lemma late_validate_after_logout_witness :
  exists w,
    run [EvMount; EvLogout] returning_visitor = Some w /\
    TLogout ∈ pending w /\ TCheckAuth ∈ pending w /\
    exists w1,
      run [EvReply TLogout RSignOut; EvClock 2000] w = Some w1 /\
      user w1 = None /\ keys_absent (storage w1) /\
      TCheckAuth ∈ pending w1 /\
      (exists w2,
         step (EvReply TCheckAuth (RValidate (Rejected "Unauthorized"))) w1
           = Some w2 /\
         user w2 = None /\ keys_absent (storage w2)) /\
      (exists w3,
         step (EvReply TCheckAuth (RValidate (Fulfilled alice))) w1 = Some w3 /\
         user w3 = Some (mkUser (v_user_id alice) (v_email alice)
                                (v_email alice) (v_role alice)) /\
         storage w3 !! "access_token" = None /\
         storage w3 !! "user_role" = None /\
         storage w3 !! "user_name" = None /\
         storage w3 !! "login_time" = Some (JS.toString 2000)).
Proof.
  eexists. split; [reflexivity |].
  assert (forall t : Task,
            t ∈ ({[+ TCheckAuth +]} ⊎ {[+ TLogout +]} : gmultiset Task) ->
            t ∈ pending (exec logout (exec checkAuth
                                        (set_mounted true returning_visitor))))
    as Hin by (intros t Ht; exact Ht).
  split; [apply Hin; multiset_solver |].
  split; [apply Hin; multiset_solver |].
  apply late_validate_after_logout; apply Hin; multiset_solver.
Defined.

(** C1, as stated, fails: the reply of a startup validation that arrives
    after a completed logout is committed, and the session that the logout
    ended is authenticated again. *)
Lemma stale_validate_resurrects_session :
  isAuthenticated <$>
    run [EvMount; EvLogout; EvReply TLogout RSignOut] returning_visitor
  = Some false /\
  isAuthenticated <$>
    run [EvMount; EvLogout; EvReply TLogout RSignOut;
         EvReply TCheckAuth (RValidate (Fulfilled alice))] returning_visitor
  = Some true /\
  user <$>
    run [EvMount; EvLogout; EvReply TLogout RSignOut;
         EvReply TCheckAuth (RValidate (Fulfilled alice))] returning_visitor
  = Some (Some (mkUser "u-1" "alice@example.org" "alice@example.org"
                       "student")).
Proof. vm_compute. repeat split. Qed.

(** ** The session invariant *)

Lemma exec_bind {A B} (m : M A) (k : A -> M B) w a w' :
  m w = (Ret a, w') -> exec (bind m k) w = exec (k a) w'.
Proof. unfold exec, bind. by intros ->. Qed.

(** Runs the straight-line prefix of a piece of code, one call at a time. *)
Ltac mrun :=
  repeat (erewrite exec_bind by reflexivity;
          cbn [set_user set_loading set_lastActivity set_storage set_pathname
               set_clock set_provider_session set_mounted set_pending set_log
               user loading lastActivity storage pathname clock
               provider_session mounted pending log]).

Lemma run_reachable es : forall w w',
  reachable w -> run es w = Some w' -> reachable w'.
Proof.
  induction es as [| e es IH]; intros w w' Hw Hrun; cbn [run] in Hrun.
  - by simplify_eq.
  - destruct (step e w) as [w1 |] eqn:E; [| done].
    eapply IH; [| done]. by eapply reachable_step.
Qed.

Lemma run_seq_reachable es : forall w w',
  reachable_seq w -> run_seq es w = Some w' -> reachable_seq w'.
Proof.
  induction es as [| e es IH]; intros w w' Hw Hrun; cbn [run_seq] in Hrun.
  - by simplify_eq.
  - destruct (seq_enabled e w) eqn:En; [| done].
    destruct (step e w) as [w1 |] eqn:E; [| done].
    eapply IH; [| done]. by eapply reachable_seq_step.
Qed.

Lemma last_validation_snoc h e :
  last_validation (h ++ [e]) =
  match verdict_of e with Some b => Some b | None => last_validation h end.
Proof. unfold last_validation. by rewrite fold_left_app. Qed.

Lemma last_validation_silent l : forall h,
  Forall (fun e => verdict_of e = None) l ->
  last_validation (h ++ l) = last_validation h.
Proof.
  induction l as [| e l IH]; intros h Hl.
  - by rewrite app_nil_r.
  - apply Forall_cons in Hl as [He Hl].
    change (e :: l) with ([e] ++ l). rewrite app_assoc, IH by done.
    by rewrite last_validation_snoc, He.
Qed.

(** Tactic for histories extended by calls that carry no verdict. *)
Ltac silent :=
  rewrite <- ?app_assoc; cbn [app];
  rewrite last_validation_silent by (repeat constructor).

Lemma settled_inv_same w w' :
  user w' = user w ->
  storage w' !! "access_token" = storage w !! "access_token" ->
  last_validation (log w') = last_validation (log w) ->
  settled_inv w -> settled_inv w'.
Proof.
  unfold settled_inv, credential_present. by intros -> -> ->.
Qed.

Lemma settled_inv_signed_out w' :
  user w' = None -> storage w' !! "access_token" = None -> settled_inv w'.
Proof. unfold settled_inv. intros -> ->. by left. Qed.

Lemma settled_inv_signed_in w' :
  is_Some (user w') -> credential_present w' ->
  last_validation (log w') = Some true -> settled_inv w'.
Proof. unfold settled_inv. by intros [u ->]. Qed.

Lemma purged_no_token st : purged st !! "access_token" = None.
Proof. apply purged_lookup_key. unfold session_keys. set_solver. Qed.

Lemma check_expected_role_spec r x :
  check_expected_role r x =
  if role_denied r x
  then throw ("Access denied: You are not authorized to login as a "
                ++ default "" r)
  else ret tt.
Proof.
  destruct r as [expected |]; [| done]. unfold check_expected_role, role_denied.
  by destruct (JS.truthy expected && negb (x =? expected)%string).
Qed.

Lemma login_resume_not_accepted w r p :
  match p with
  | Fulfilled response => role_denied r (l_role response) = true
  | Rejected _ => True
  end ->
  exec (login_resume r p) w = w.
Proof.
  destruct p as [response | message]; intros Hp.
  - cbv beta iota delta [login_resume exec try_catch bind await ret snd].
    rewrite check_expected_role_spec, Hp. reflexivity.
  - reflexivity.
Qed.

Lemma login_resume_accepted w r response :
  role_denied r (l_role response) = false ->
  exists path,
    exec (login_resume r (Fulfilled response)) w =
    mkWorld (Some (mkUser (l_user_id response) (l_email response)
                          (l_name response) (l_role response)))
            (loading w) (lastActivity w)
            (<["login_time" := JS.toString (clock w)]>
               (<["user_name" := l_name response]>
                  (<["user_role" := l_role response]>
                     (<["access_token" := l_access_token response]>
                        (storage w)))))
            path (clock w) (provider_session w)
            (provider_online w) (mounted w) (pending w)
            (log w ++ [SetItem "access_token" (l_access_token response);
                       SetItem "user_role" (l_role response);
                       SetItem "user_name" (l_name response);
                       SetItem "login_time" (JS.toString (clock w));
                       Push path]).
Proof.
  intros Hp.
  exists (if (l_role response =? "admin")%string
          then "/admin/dashboard" else "/student/dashboard").
  cbv beta iota delta [login_resume exec try_catch bind await ret snd].
  rewrite check_expected_role_spec, Hp.
  destruct (l_role response =? "admin")%string; msimpl;
    by rewrite <- !app_assoc.
Qed.

Lemma stamp_login_time_run w :
  stamp_login_time_if_missing w = (Ret tt, exec stamp_login_time_if_missing w).
Proof.
  unfold stamp_login_time_if_missing. mhead.
  by destruct (JS.truthy_opt (storage w !! "login_time")).
Qed.

Lemma onSignedIn_facts w token :
  user (exec (onSignedIn token) w) = user w /\
  storage (exec (onSignedIn token) w) !! "access_token" = Some token /\
  pending (exec (onSignedIn token) w) = pending w ⊎ {[+ TSignedIn +]} /\
  mounted (exec (onSignedIn token) w) = mounted w.
Proof.
  unfold onSignedIn.
  cbv beta iota delta [exec bind setLoading snd].
  rewrite stamp_login_time_run, stamp_login_time_exec.
  destruct (JS.truthy_opt _); msimpl; by rewrite lookup_insert_eq.
Qed.

Lemma onSignedIn_resume_ok_facts w response :
  is_Some (user (exec (onSignedIn_resume (Fulfilled response)) w)) /\
  storage (exec (onSignedIn_resume (Fulfilled response)) w) !! "access_token"
    = storage w !! "access_token" /\
  pending (exec (onSignedIn_resume (Fulfilled response)) w) = pending w /\
  mounted (exec (onSignedIn_resume (Fulfilled response)) w) = mounted w /\
  last_validation (log (exec (onSignedIn_resume (Fulfilled response)) w))
    = last_validation (log w).
Proof.
  unfold onSignedIn_resume. mrun.
  destruct ((pathname w =? "/login")%string
            || (pathname w =? "/signup")%string);
    [destruct (v_role response =? "admin")%string |]; msimpl;
    rewrite !lookup_insert_ne by done; (split; [by eexists |]);
    repeat split; by silent.
Qed.

Lemma onSignedIn_catch_resume_exec w :
  exec onSignedIn_catch_resume w =
  mkWorld None false (lastActivity w) (purged (storage w)) (pathname w)
          (clock w)
          (provider_session w && negb (provider_online w)) (provider_online w)
          (mounted w) (pending w)
          (log w ++ [RemoveItem "access_token"; RemoveItem "user_role";
                     RemoveItem "user_name"; RemoveItem "login_time"]).
Proof.
  unfold onSignedIn_catch_resume. msimpl. unfold purged.
  by rewrite <- !app_assoc.
Qed.

Lemma onSignedOut_exec w :
  exec onSignedOut w =
  mkWorld None (loading w) (lastActivity w) (purged (storage w)) "/login"
          (clock w) (provider_session w)
          (provider_online w) (mounted w) (pending w)
          (log w ++ [RemoveItem "access_token"; RemoveItem "user_role";
                     RemoveItem "user_name"; RemoveItem "login_time";
                     Push "/login"]).
Proof.
  unfold onSignedOut. msimpl. unfold purged. by rewrite <- !app_assoc.
Qed.

Lemma checkTimers_facts w :
  user (exec checkTimers w) = user w /\
  storage (exec checkTimers w) = storage w /\
  mounted (exec checkTimers w) = mounted w /\
  last_validation (log (exec checkTimers w)) = last_validation (log w) /\
  (pending (exec checkTimers w) = pending w \/
   pending (exec checkTimers w) = pending w ⊎ {[+ TLogout +]} \/
   pending (exec checkTimers w) = pending w ⊎ {[+ TLogout; TLogout +]}).
Proof.
  rewrite checkTimers_exec.
  destruct (INACTIVITY_LIMIT <? clock w - lastActivity w);
    (destruct (storage w !! "login_time") as [str |];
     [destruct (JS.truthy str && JS.elapsed_gt _ _ _) |]);
    rewrite ?logout_exec; msimpl; rewrite ?logout_exec; msimpl;
    (do 3 (split; [done |])); (split; [try done; by silent |]).
  - right. right. multiset_solver.
  - right. by left.
  - right. by left.
  - right. by left.
  - by left.
  - by left.
Qed.

Lemma seq_inv_init w : initial w -> seq_inv w.
Proof.
  intros (Hu & _ & _ & _ & Hp & Hl). split; [done |].
  left. split; [done |]. unfold settled_inv. rewrite Hu, Hl. by right.
Qed.

Lemma seq_inv_mounted w :
  mounted w = true -> suspended_inv w -> seq_inv w.
Proof. intros Hm Hs. split; [congruence | done]. Qed.

Lemma suspended_inv_settled w :
  pending w = ∅ -> suspended_inv w -> settled_inv w.
Proof.
  intros Hp [[_ ?] | [[Hq _] | [[Hq _] | [Hq | [[r [Hq _]] | [[Hq _]
             | [Hq | Hq]]]]]]];
    [done | rewrite Hp in Hq; multiset_solver ..].
Qed.

(** Events that do not run code of the session manager. *)
Lemma seq_inv_surroundings e w w' :
  starts_operation e = false -> (forall t r, e <> EvReply t r) ->
  seq_inv w -> step e w = Some w' -> seq_inv w'.
Proof.
  intros Hop Hrep Hinv Hstep. destruct e; try discriminate Hop.
  - cbn in Hstep. by simplify_eq.
  - cbn in Hstep. by simplify_eq.
  - cbn in Hstep. by simplify_eq.
  - unfold step in Hstep. destruct (isAuthenticated w); [| done].
    by simplify_eq.
  - by destruct (Hrep t r).
Qed.

(** Mounting the component. *)
Lemma seq_inv_mount w w' :
  seq_inv w -> step EvMount w = Some w' -> seq_inv w'.
Proof.
  intros [Hpre _] Hstep. unfold step in Hstep.
  destruct (mounted w) eqn:Hm; [done |]. simplify_eq.
  destruct (Hpre eq_refl) as (Hp & Hu & Hl).
  rewrite checkAuth_exec. cbn [storage set_mounted].
  destruct (storage w !! "access_token") as [token |] eqn:Htok;
    cbn [JS.truthy_opt];
    [destruct (JS.truthy token) |]; apply seq_inv_mounted; try done.
  - right. left. cbn [pending user set_pending set_log set_mounted].
    unfold credential_present. cbn [storage set_pending set_log set_mounted].
    rewrite Hp, Htok. split; [multiset_solver | by eauto].
  - left. split; [done |]. unfold settled_inv.
    cbn [user log storage set_loading set_mounted]. rewrite Hu, Hl. by right.
  - left. split; [done |]. unfold settled_inv.
    cbn [user log storage set_loading set_mounted]. rewrite Hu, Hl. by right.
Qed.

(** Operations started when nothing is in flight. *)
Lemma seq_inv_start e w w' :
  starts_operation e = true -> e <> EvMount -> pending w = ∅ ->
  seq_inv w -> step e w = Some w' -> seq_inv w'.
Proof.
  intros Hop Hne Hp [Hpre Hs] Hstep.
  pose proof (suspended_inv_settled w Hp Hs) as Hk.
  assert (mounted w = true) as Hm.
  { destruct (mounted w) eqn:Hm; [done |].
    destruct (Hpre eq_refl) as (_ & Hu & _).
    destruct e; try discriminate Hop; try done; unfold step in Hstep;
      rewrite ?Hm in Hstep; try done.
    unfold isAuthenticated in Hstep. by rewrite Hu in Hstep. }
  clear Hpre.
  destruct e as [| t | p | a | b | | | | em pw r | | | t r0];
    try discriminate Hop; try done;
    unfold step in Hstep; rewrite ?Hm in Hstep.
  - (* the provider reports an event *)
    simplify_eq.
    destruct a as [[token |] | |]; cbn [onAuthStateChange provider_reports].
    + destruct (onSignedIn_facts (set_provider_session true w) token)
        as (Hu & Htok & Hpe & Hmo).
      cbn [pending mounted set_provider_session] in Hpe, Hmo.
      apply seq_inv_mounted; [congruence |]. right. right. left.
      split; [rewrite Hpe, Hp; multiset_solver |].
      unfold credential_present. rewrite Htok. by eauto.
    + by apply seq_inv_mounted; [| left].
    + rewrite onSignedOut_exec. apply seq_inv_mounted; [done |]. left.
      split; [done |]. apply settled_inv_signed_out; [done |].
      apply purged_no_token.
    + by apply seq_inv_mounted; [| left].
  - (* 'auth:unauthorized' *)
    simplify_eq. apply seq_inv_mounted; [done |].
    do 6 right. left. unfold handleUnauthorized. rewrite logout_exec.
    cbn [pending set_pending]. rewrite Hp. multiset_solver.
  - (* the interval fires *)
    destruct (isAuthenticated w); [| done]. simplify_eq.
    destruct (checkTimers_facts w) as (Hu & Hst & Hmo & Hlv & Hpe).
    apply seq_inv_mounted; [congruence |].
    destruct Hpe as [Hpe | [Hpe | Hpe]].
    + left. split; [congruence |].
      apply (settled_inv_same w); [done | by rewrite Hst | done | done].
    + do 6 right. left. rewrite Hpe, Hp. multiset_solver.
    + do 7 right. rewrite Hpe, Hp. multiset_solver.
  - (* login is called *)
    simplify_eq. apply seq_inv_mounted; [done |].
    do 4 right. left. exists r. unfold login, api_login. msimpl.
    split; [rewrite Hp; multiset_solver |].
    apply (settled_inv_same w); [done | done | | done].
    msimpl. by silent.
  - (* signup is called *)
    simplify_eq. apply seq_inv_mounted; [done |].
    do 5 right. left. unfold signup, api_signup. msimpl.
    split; [rewrite Hp; multiset_solver |].
    apply (settled_inv_same w); [done | done | | done].
    msimpl. by silent.
  - (* logout is called *)
    simplify_eq. apply seq_inv_mounted; [done |].
    do 6 right. left. rewrite logout_exec.
    cbn [pending set_pending]. rewrite Hp. multiset_solver.
Qed.

Lemma stamp_login_time_facts w :
  user (exec stamp_login_time_if_missing w) = user w /\
  pending (exec stamp_login_time_if_missing w) = pending w /\
  mounted (exec stamp_login_time_if_missing w) = mounted w /\
  storage (exec stamp_login_time_if_missing w) !! "access_token"
    = storage w !! "access_token" /\
  last_validation (log (exec stamp_login_time_if_missing w))
    = last_validation (log w).
Proof.
  rewrite stamp_login_time_exec.
  destruct (JS.truthy_opt (storage w !! "login_time")); [done |].
  msimpl. rewrite lookup_insert_ne by done. repeat split. by silent.
Qed.

Lemma singleton_minus (t : Task) :
  ({[+ t +]} : gmultiset Task) ∖ {[+ t +]} = ∅.
Proof. multiset_solver. Qed.

Lemma elem_of_pair (t a : Task) :
  t ∈ ({[+ a; a +]} : gmultiset Task) -> t = a.
Proof.
  intros [Hin | Hin]%gmultiset_elem_of_disj_union;
    by apply gmultiset_elem_of_singleton in Hin.
Qed.

Lemma pair_minus (t : Task) :
  ({[+ t; t +]} : gmultiset Task) ∖ {[+ t +]} = {[+ t +]}.
Proof. multiset_solver. Qed.

(** Settling the task of the operation under way. *)
Lemma seq_inv_reply t r w w' :
  seq_inv w -> step (EvReply t r) w = Some w' -> seq_inv w'.
Proof.
  intros [Hpre Hs] Hstep. unfold step in Hstep.
  destruct (resume t r) as [k |] eqn:Hk; [| done].
  destruct (decide (t ∈ pending w)) as [Hin |]; [| done]. simplify_eq.
  assert (mounted w = true) as Hm.
  { destruct (mounted w) eqn:E; [done |].
    destruct (Hpre eq_refl) as [Hp _]. rewrite Hp in Hin. multiset_solver. }
  destruct Hs as [[Hp _] | [(Hp & Hu & Hc) | [(Hp & Hc) | [Hp |
                 [(r0 & Hp & Hk0) | [(Hp & Hk0) | [Hp | Hp]]]]]]];
    rewrite Hp in Hin |- *.
  - multiset_solver.
  - (* checkAuth *)
    assert (t = TCheckAuth) as -> by multiset_solver.
    destruct r as [[response | message] | | |]; try discriminate Hk;
      cbn [resume] in Hk; simplify_eq; rewrite singleton_minus.
    + rewrite checkAuth_resume_ok_exec.
      match goal with
      | |- seq_inv (set_loading false (exec stamp_login_time_if_missing ?w0)) =>
          destruct (stamp_login_time_facts w0) as (Hsu & Hsp & Hsm & Hst & Hsl)
      end.
      apply seq_inv_mounted;
        [cbn [mounted set_loading]; by rewrite Hsm |]. left.
      split; [cbn [pending set_loading]; by rewrite Hsp |].
      apply settled_inv_signed_in.
      * cbn [user set_loading]. rewrite Hsu. by eexists.
      * unfold credential_present. cbn [storage set_loading]. by rewrite Hst.
      * cbn [log set_loading]. rewrite Hsl. msimpl.
        by rewrite last_validation_snoc.
    + rewrite checkAuth_resume_failed_exec. msimpl.
      apply seq_inv_mounted; [done |]. left. split; [done |].
      apply settled_inv_signed_out; [done | apply purged_no_token].
  - (* the SIGNED_IN handler *)
    assert (t = TSignedIn) as -> by multiset_solver.
    destruct r as [[response | message] | | |]; try discriminate Hk;
      cbn [resume] in Hk; simplify_eq; rewrite singleton_minus.
    + match goal with
      | |- seq_inv (exec _ ?w0) =>
          destruct (onSignedIn_resume_ok_facts w0 response)
            as (Hru & Hrt & Hrp & Hrm & Hrl)
      end.
      apply seq_inv_mounted; [by rewrite Hrm |]. left.
      split; [by rewrite Hrp |].
      apply settled_inv_signed_in; [done | |].
      * unfold credential_present. by rewrite Hrt.
      * rewrite Hrl. msimpl. by rewrite last_validation_snoc.
    + apply seq_inv_mounted; [done |]. do 3 right. left.
      cbn [onSignedIn_resume]. unfold supabase_signOut. msimpl.
      multiset_solver.
  - (* the catch block of the SIGNED_IN handler *)
    assert (t = TSignedInCatch) as -> by multiset_solver.
    destruct r; try discriminate Hk. cbn [resume] in Hk. simplify_eq.
    rewrite singleton_minus, onSignedIn_catch_resume_exec. msimpl.
    apply seq_inv_mounted; [done |]. left. split; [done |].
    apply settled_inv_signed_out; [done | apply purged_no_token].
  - (* login *)
    assert (t = TLogin r0) as -> by multiset_solver.
    destruct r as [| p | |]; try discriminate Hk.
    cbn [resume] in Hk. simplify_eq. rewrite singleton_minus.
    destruct (match p with
              | Fulfilled response => role_denied r0 (l_role response)
              | Rejected _ => true
              end) eqn:Hdenied.
    + rewrite login_resume_not_accepted by (by destruct p).
      apply seq_inv_mounted; [done |]. left. split; [done |].
      apply (settled_inv_same w); [done | done | | done].
      msimpl. rewrite last_validation_snoc.
      destruct p as [response | message]; cbn [verdict_of]; [| done].
      by rewrite Hdenied.
    + destruct p as [response | message]; [| done].
      match goal with
      | |- seq_inv (exec _ ?w0) =>
          destruct (login_resume_accepted w0 r0 response Hdenied) as [path ->]
      end.
      msimpl. apply seq_inv_mounted; [done |]. left. split; [done |].
      apply settled_inv_signed_in.
      * by eexists.
      * unfold credential_present. msimpl.
        rewrite !lookup_insert_ne, lookup_insert_eq by done. by eexists.
      * msimpl. rewrite last_validation_silent by (repeat constructor).
        rewrite last_validation_snoc. cbn [verdict_of].
        by rewrite Hdenied.
  - (* signup *)
    assert (t = TSignup) as -> by multiset_solver.
    destruct r as [| | p |]; try discriminate Hk.
    cbn [resume] in Hk. simplify_eq. rewrite singleton_minus.
    apply seq_inv_mounted; [by destruct p |]. left.
    split; [by destruct p |].
    apply (settled_inv_same w); [by destruct p | by destruct p | | done].
    destruct p; unfold signup_resume; msimpl; by rewrite last_validation_snoc.
  - (* logout *)
    assert (t = TLogout) as -> by multiset_solver.
    destruct r; try discriminate Hk. cbn [resume] in Hk. simplify_eq.
    rewrite singleton_minus, logout_resume_exec. msimpl.
    apply seq_inv_mounted; [done |]. left. split; [done |].
    apply settled_inv_signed_out; [done | apply purged_no_token].
  - (* the first of two logouts *)
    apply elem_of_pair in Hin as ->.
    destruct r; try discriminate Hk. cbn [resume] in Hk. simplify_eq.
    rewrite pair_minus, logout_resume_exec. msimpl.
    apply seq_inv_mounted; [done |]. by do 6 right; left.
Qed.

Lemma seq_inv_step e w w' :
  seq_inv w -> seq_enabled e w = true -> step e w = Some w' -> seq_inv w'.
Proof.
  intros Hinv Hen Hstep. unfold seq_enabled in Hen.
  destruct (starts_operation e) eqn:Hop; cbn [negb orb] in Hen.
  - apply bool_decide_eq_true in Hen.
    destruct e; try discriminate Hop;
      first [ by eapply seq_inv_mount
            | by eapply seq_inv_start; [done | discriminate | done ..] ].
  - destruct e; try discriminate Hop;
      try (by eapply seq_inv_surroundings; [done | done | done | done]).
    by eapply seq_inv_reply.
Qed.

Lemma reachable_seq_inv w : reachable_seq w -> seq_inv w.
Proof.
  induction 1 as [w Hinit | e w w' _ IH Hen Hstep].
  - by apply seq_inv_init.
  - by eapply seq_inv_step.
Qed.

(** C3 (as amended). In every state reached by runs in which each
    operation of the session manager (startup validation, login, signup,
    logout, provider sign-in and sign-out handling, unauthorized signal,
    timer check) runs to its end before the next one starts, once nothing is
    in flight the identity is non-null if and only if the credential is in
    durable storage and its most recent validation succeeded. *)
Theorem session_invariant_without_interleaving (w : World) :
  reachable_seq w -> pending w = ∅ -> session_invariant w.
Proof.
  intros Hr Hp. destruct (reachable_seq_inv w Hr) as [_ Hs].
  pose proof (suspended_inv_settled w Hp Hs) as Hk.
  unfold session_invariant, settled_inv, isAuthenticated in *.
  destruct (user w); [done |]. split; [done |].
  intros [[token Htok] Hlv]. destruct Hk; congruence.
Qed.

Lemma session_invariant_without_interleaving_witness :
  reachable_seq after_password_login /\
  pending after_password_login = ∅ /\
  isAuthenticated after_password_login = true /\
  session_invariant after_password_login.
Proof.
  assert (reachable_seq after_password_login) as Hr.
  { apply (run_seq_reachable password_login_run first_visit).
    - apply reachable_seq_init, fresh_world_initial.
    - by vm_compute. }
  assert (pending after_password_login = ∅) as Hp by (by vm_compute).
  split; [exact Hr |]. split; [exact Hp |]. split; [by vm_compute |].
  exact (session_invariant_without_interleaving after_password_login Hr Hp).
Defined.

(** C3, as stated, fails under interleaving: when the provider's sign-out
    event is handled while the startup validation is in flight, the late
    approval sets the identity although the credential has been removed, and
    nothing is left in flight. *)
Lemma overtaken_validation_breaks_invariant :
  exists w,
    run overtaken_validation_run returning_visitor = Some w /\
    reachable w /\ pending w = ∅ /\
    isAuthenticated w = true /\
    storage w !! "access_token" = None /\
    ~ session_invariant w.
Proof.
  destruct (run overtaken_validation_run returning_visitor) as [w |] eqn:E;
    [| by vm_compute in E].
  assert (isAuthenticated w = true) as Hauth.
  { assert (isAuthenticated <$> run overtaken_validation_run returning_visitor
            = Some true) as H by (by vm_compute).
    rewrite E in H. by injection H. }
  assert (storage w !! "access_token" = None) as Htok.
  { assert ((fun w => storage w !! "access_token")
              <$> run overtaken_validation_run returning_visitor
            = Some None) as H by (by vm_compute).
    rewrite E in H. by injection H. }
  assert (pending w = ∅) as Hp.
  { assert (pending <$> run overtaken_validation_run returning_visitor
            = Some ∅) as H by (by vm_compute).
    rewrite E in H. by injection H. }
  exists w. split; [done |]. split.
  { eapply run_reachable; [| exact E].
    apply reachable_init, fresh_world_initial. }
  repeat (split; [done |]).
  intros [Hinv _]. destruct (Hinv Hauth) as [[token Ht] _]. congruence.
Qed.

(** * Further properties of the code *)

(** ** What the component leaves alone *)

Section Keeps.

Variable R : World -> World -> Prop.
Hypothesis R_refl : forall w, R w w.
Hypothesis R_trans : forall a b c, R a b -> R b c -> R a c.

Lemma keeps_ret {A} (a : A) : keeps R (ret a).
Proof. intros w. apply R_refl. Qed.

Lemma keeps_throw {A} message : keeps R (@throw A message).
Proof. intros w. apply R_refl. Qed.

Lemma keeps_bind {A B} (m : M A) (k : A -> M B) :
  keeps R m -> (forall a, keeps R (k a)) -> keeps R (bind m k).
Proof.
  intros Hm Hk w. unfold bind. specialize (Hm w).
  destruct (m w) as [[a | e] w1]; cbn [snd] in *; [| done].
  eapply R_trans; [exact Hm | apply Hk].
Qed.

Lemma keeps_try_catch {A} (m : M A) (h : string -> M A) :
  keeps R m -> (forall e, keeps R (h e)) -> keeps R (try_catch m h).
Proof.
  intros Hm Hh w. unfold try_catch. specialize (Hm w).
  destruct (m w) as [[a | e] w1]; cbn [snd] in *; [done |].
  eapply R_trans; [exact Hm | apply Hh].
Qed.

Lemma keeps_try_finally {A} (m : M A) (f : M unit) :
  keeps R m -> keeps R f -> keeps R (try_finally m f).
Proof.
  intros Hm Hf w. unfold try_finally. specialize (Hm w).
  destruct (m w) as [r w1]. specialize (Hf w1).
  destruct (f w1) as [[[] | e] w2]; cbn [snd] in *;
    eapply R_trans; eassumption.
Qed.

Lemma keeps_await {A} (p : Settled A) : keeps R (await p).
Proof. destruct p; [apply keeps_ret | apply keeps_throw]. Qed.

Lemma keeps_getItem k : keeps R (getItem k).
Proof. intros w. apply R_refl. Qed.

Lemma keeps_Date_now : keeps R Date_now.
Proof. intros w. apply R_refl. Qed.

Lemma keeps_location_pathname : keeps R location_pathname.
Proof. intros w. apply R_refl. Qed.

Lemma keeps_getLastActivity : keeps R getLastActivity.
Proof. intros w. apply R_refl. Qed.

End Keeps.

Lemma within_remit_refl w : within_remit w w.
Proof. split; [| done]. exists []. by rewrite app_nil_r. Qed.

Lemma within_remit_trans a b c :
  within_remit a b -> within_remit b c -> within_remit a c.
Proof.
  intros [(h1 & Hl1 & Hf1) Hs1] [(h2 & Hl2 & Hf2) Hs2]. split.
  - exists (h1 ++ h2). rewrite Hl2, Hl1, app_assoc. split; [done |].
    by apply Forall_app.
  - intros k Hk. by rewrite Hs2, Hs1.
Qed.

(** A step that adds one call within the remit and keeps the other keys. *)
Lemma within_remit_one w w' e :
  log w' = log w ++ [e] -> in_remit e ->
  (forall k, k ∉ session_keys -> storage w' !! k = storage w !! k) ->
  within_remit w w'.
Proof.
  intros Hl He Hs. split; [| done]. exists [e]. split; [done |].
  by repeat constructor.
Qed.

(** A step that changes neither the history nor the storage. *)
Lemma within_remit_quiet w w' :
  log w' = log w -> storage w' = storage w -> within_remit w w'.
Proof.
  intros Hl Hs. split; [| by rewrite Hs]. exists [].
  by rewrite app_nil_r.
Qed.

Lemma keeps_setUser u : keeps within_remit (setUser u).
Proof. intros w. by apply within_remit_quiet. Qed.

Lemma keeps_setLoading b : keeps within_remit (setLoading b).
Proof. intros w. by apply within_remit_quiet. Qed.

Lemma keeps_setLastActivity t : keeps within_remit (setLastActivity t).
Proof. intros w. by apply within_remit_quiet. Qed.

Lemma keeps_signOut_settled : keeps within_remit signOut_settled.
Proof. intros w. by apply within_remit_quiet. Qed.

Lemma keeps_spawn t : keeps within_remit (spawn t).
Proof. intros w. by apply within_remit_quiet. Qed.

Lemma keeps_emit e :
  in_remit e -> keeps within_remit (emit e).
Proof. intros He w. by eapply within_remit_one. Qed.

Lemma keeps_setItem k v :
  k ∈ session_keys -> keeps within_remit (setItem k v).
Proof.
  intros Hk w. eapply within_remit_one; [done | done |].
  intros k' Hk'. cbn [setItem snd storage set_log set_storage].
  apply lookup_insert_ne. by intros ->.
Qed.

Lemma keeps_removeItem k :
  k ∈ session_keys -> keeps within_remit (removeItem k).
Proof.
  intros Hk w. eapply within_remit_one; [done | done |].
  intros k' Hk'. cbn [removeItem snd storage set_log set_storage].
  apply lookup_delete_ne. by intros ->.
Qed.

Lemma keeps_router_push path :
  path ∈ own_routes -> keeps within_remit (router_push path).
Proof. intros Hp w. by eapply within_remit_one. Qed.

(** Decomposes a piece of the component's code into its calls. *)
Ltac keeps_tac :=
  repeat first
    [ apply (keeps_bind _ within_remit_trans); [| intros ?]
    | apply (keeps_try_catch _ within_remit_trans); [| intros ?]
    | apply (keeps_try_finally _ within_remit_trans)
    | apply (keeps_ret _ within_remit_refl)
    | apply (keeps_throw _ within_remit_refl)
    | apply (keeps_await _ within_remit_refl)
    | apply (keeps_getItem _ within_remit_refl)
    | apply (keeps_Date_now _ within_remit_refl)
    | apply (keeps_location_pathname _ within_remit_refl)
    | apply (keeps_getLastActivity _ within_remit_refl)
    | apply keeps_setUser | apply keeps_setLoading
    | apply keeps_setLastActivity | apply keeps_signOut_settled
    | apply keeps_spawn
    | (apply keeps_emit; exact I)
    | (apply keeps_setItem; unfold session_keys; by repeat constructor)
    | (apply keeps_removeItem; unfold session_keys; by repeat constructor)
    | (apply keeps_router_push; unfold own_routes; by repeat constructor)
    | match goal with
      | |- keeps _ (if ?b then _ else _) => destruct b
      | |- keeps _ (match ?x with _ => _ end) => destruct x
      end ].

Lemma keeps_checkAuth : keeps within_remit checkAuth.
Proof. unfold checkAuth, api_validate. keeps_tac. Qed.

Lemma keeps_checkAuth_resume p : keeps within_remit (checkAuth_resume p).
Proof.
  unfold checkAuth_resume, stamp_login_time_if_missing, purge_storage.
  keeps_tac.
Qed.

Lemma keeps_logout : keeps within_remit logout.
Proof. unfold logout, supabase_signOut. keeps_tac. Qed.

Lemma keeps_logout_resume : keeps within_remit logout_resume.
Proof. unfold logout_resume, purge_storage. keeps_tac. Qed.

Lemma keeps_login em pw r : keeps within_remit (login em pw r).
Proof. unfold login, api_login. keeps_tac. Qed.

Lemma keeps_login_resume r p : keeps within_remit (login_resume r p).
Proof. unfold login_resume, check_expected_role. keeps_tac. Qed.

Lemma keeps_signup : keeps within_remit signup.
Proof. unfold signup, api_signup. keeps_tac. Qed.

Lemma keeps_signup_resume p : keeps within_remit (signup_resume p).
Proof. unfold signup_resume. keeps_tac. Qed.

Lemma keeps_onAuthStateChange a : keeps within_remit (onAuthStateChange a).
Proof.
  unfold onAuthStateChange, onSignedIn, onSignedOut, api_validate,
    stamp_login_time_if_missing, purge_storage.
  keeps_tac.
Qed.

Lemma keeps_onSignedIn_resume p : keeps within_remit (onSignedIn_resume p).
Proof. unfold onSignedIn_resume, supabase_signOut. keeps_tac. Qed.

Lemma keeps_onSignedIn_catch_resume :
  keeps within_remit onSignedIn_catch_resume.
Proof. unfold onSignedIn_catch_resume, purge_storage. keeps_tac. Qed.

Lemma keeps_handleActivity : keeps within_remit handleActivity.
Proof. unfold handleActivity. keeps_tac. Qed.

Lemma keeps_checkTimers : keeps within_remit checkTimers.
Proof. unfold checkTimers, logout, supabase_signOut. keeps_tac. Qed.

Lemma keeps_resume t r k : resume t r = Some k -> keeps within_remit k.
Proof.
  destruct t, r; cbn [resume]; intros Hk; simplify_eq;
    auto using keeps_checkAuth_resume, keeps_onSignedIn_resume,
      keeps_onSignedIn_catch_resume, keeps_login_resume,
      keeps_signup_resume, keeps_logout_resume.
Qed.

Lemma step_within_remit e w w' : step e w = Some w' -> within_remit w w'.
Proof.
  destruct e; cbn [step]; intros Hstep.
  - destruct (mounted w); [done |]. simplify_eq.
    eapply within_remit_trans; [| apply keeps_checkAuth].
    by apply within_remit_quiet.
  - simplify_eq. by apply within_remit_quiet.
  - simplify_eq. by apply within_remit_quiet.
  - destruct (mounted w); [| done]. simplify_eq.
    eapply within_remit_trans; [| apply keeps_onAuthStateChange].
    apply within_remit_quiet; by destruct e as [[?|] | |].
  - simplify_eq. by apply within_remit_quiet.
  - destruct (mounted w); [| done]. simplify_eq. apply keeps_logout.
  - destruct (isAuthenticated w); [| done]. simplify_eq.
    apply keeps_handleActivity.
  - destruct (isAuthenticated w); [| done]. simplify_eq.
    apply keeps_checkTimers.
  - destruct (mounted w); [| done]. simplify_eq. apply keeps_login.
  - destruct (mounted w); [| done]. simplify_eq. apply keeps_signup.
  - destruct (mounted w); [| done]. simplify_eq. apply keeps_logout.
  - destruct (resume t r) as [k |] eqn:Hk; [| done].
    destruct (decide (t ∈ pending w)); [| done]. simplify_eq.
    eapply within_remit_trans; [| by eapply keeps_resume].
    by eapply within_remit_one.
Qed.

Lemma run_within_remit es : forall w w',
  run es w = Some w' -> within_remit w w'.
Proof.
  induction es as [| e es IH]; intros w w' Hrun; cbn [run] in Hrun.
  - simplify_eq. apply within_remit_refl.
  - destruct (step e w) as [w1 |] eqn:E; [| done].
    eapply within_remit_trans; [by eapply step_within_remit | by apply IH].
Qed.

(** X1. Under any interleaving of events, the storage entries under keys
    other than the four session keys are never changed by the component. *)
Theorem other_storage_keys_untouched (es : list Event) (w w' : World)
    (k : string) :
  run es w = Some w' -> k ∉ session_keys ->
  storage w' !! k = storage w !! k.
Proof. intros Hrun Hk. by apply (run_within_remit es w w' Hrun). Qed.

Lemma other_storage_keys_untouched_witness :
  exists w',
    run visit_and_logout_run themed_visitor = Some w' /\
    ("theme" ∉ session_keys) /\
    storage w' !! "theme" = storage themed_visitor !! "theme".
Proof.
  destruct (run visit_and_logout_run themed_visitor) as [w' |] eqn:E;
    [| by vm_compute in E].
  assert ("theme" ∉ session_keys) as Hk.
  { unfold session_keys. intros Hin.
    repeat (apply elem_of_cons in Hin as [Heq | Hin]; [discriminate Heq |]).
    by apply elem_of_nil in Hin. }
  exists w'. split; [done |]. split; [done |].
  exact (other_storage_keys_untouched visit_and_logout_run themed_visitor
           w' "theme" E Hk).
Defined.

(** X2. Under any interleaving of events, every storage write or removal
    the component makes is on one of the four session keys, and every
    navigation it makes is to the login page or to one of the two
    dashboards. *)
Theorem calls_stay_within_remit (es : list Event) (w w' : World) :
  run es w = Some w' ->
  exists h, log w' = log w ++ h /\ Forall in_remit h.
Proof. intros Hrun. by apply (run_within_remit es w w' Hrun). Qed.

Lemma calls_stay_within_remit_witness :
  exists w',
    run visit_and_logout_run themed_visitor = Some w' /\
    exists h, log w' = log themed_visitor ++ h /\ Forall in_remit h.
Proof.
  destruct (run visit_and_logout_run themed_visitor) as [w' |] eqn:E;
    [| by vm_compute in E].
  exists w'. split; [done |].
  exact (calls_stay_within_remit visit_and_logout_run themed_visitor w' E).
Defined.

(** ** Login and signup *)

Lemma login_resume_accepted_run w r response :
  role_denied r (l_role response) = false ->
  login_resume r (Fulfilled response) w =
  (Ret tt, exec (login_resume r (Fulfilled response)) w).
Proof.
  intros Hp.
  cbv beta iota delta [login_resume exec try_catch bind await ret snd].
  rewrite check_expected_role_spec, Hp.
  by destruct (l_role response =? "admin")%string.
Qed.

Lemma login_resume_accepted_exec w r response :
  role_denied r (l_role response) = false ->
  exec (login_resume r (Fulfilled response)) w =
  mkWorld (Some (mkUser (l_user_id response) (l_email response)
                        (l_name response) (l_role response)))
          (loading w) (lastActivity w)
          (<["login_time" := JS.toString (clock w)]>
             (<["user_name" := l_name response]>
                (<["user_role" := l_role response]>
                   (<["access_token" := l_access_token response]>
                      (storage w)))))
          (if (l_role response =? "admin")%string
           then "/admin/dashboard" else "/student/dashboard")
          (clock w) (provider_session w)
          (provider_online w) (mounted w) (pending w)
          (log w ++ [SetItem "access_token" (l_access_token response);
                     SetItem "user_role" (l_role response);
                     SetItem "user_name" (l_name response);
                     SetItem "login_time" (JS.toString (clock w));
                     Push (if (l_role response =? "admin")%string
                           then "/admin/dashboard"
                           else "/student/dashboard")]).
Proof.
  intros Hp.
  cbv beta iota delta [login_resume exec try_catch bind await ret snd].
  rewrite check_expected_role_spec, Hp.
  destruct (l_role response =? "admin")%string; msimpl;
    by rewrite <- !app_assoc.
Qed.

Lemma role_not_denied r x :
  role_denied r x = false ->
  r = None \/ r = Some "" \/ r = Some x.
Proof.
  destruct r as [[| c e] |]; cbn; [by auto | | by auto].
  intros H%negb_false_iff%String.eqb_eq. by subst; auto.
Qed.

(** X3. A login the backend accepts and the role gate lets through ends
    without error and establishes the session: the identity is the one the
    backend returned, the four keys hold the token, the role, the name and
    the current time, and the location is the admin dashboard for the role
    "admin" and the student dashboard for any other role.  When a non-empty
    [expectedRole] was given, the role of the identity is that role. *)
Theorem login_establishes_session (w : World) (r : option string)
    (response : LoginResponse) :
  role_denied r (l_role response) = false ->
  exists w',
    login_resume r (Fulfilled response) w = (Ret tt, w') /\
    user w' = Some (mkUser (l_user_id response) (l_email response)
                           (l_name response) (l_role response)) /\
    storage w' !! "access_token" = Some (l_access_token response) /\
    storage w' !! "user_role" = Some (l_role response) /\
    storage w' !! "user_name" = Some (l_name response) /\
    storage w' !! "login_time" = Some (JS.toString (clock w)) /\
    JS.parseInt (JS.toString (clock w)) = Some (clock w) /\
    ((l_role response = "admin" /\ pathname w' = "/admin/dashboard") \/
     (l_role response <> "admin" /\ pathname w' = "/student/dashboard")) /\
    (r = None \/ r = Some "" \/ r = Some (l_role response)).
Proof.
  intros Hp. eexists. split; [by apply login_resume_accepted_run |].
  rewrite login_resume_accepted_exec by done. cbn [user storage pathname].
  split; [done |].
  split; [by rewrite !lookup_insert_ne, lookup_insert_eq by done |].
  split; [by rewrite !lookup_insert_ne, lookup_insert_eq by done |].
  split; [by rewrite !lookup_insert_ne, lookup_insert_eq by done |].
  split; [by rewrite lookup_insert_eq |].
  split; [apply parseInt_toString |].
  split; [| by apply role_not_denied].
  destruct (String.eqb_spec (l_role response) "admin"); [by left | by right].
Qed.

Lemma login_establishes_session_witness :
  role_denied (Some "admin") (l_role admin_login) = false /\
  exists w',
    login_resume (Some "admin") (Fulfilled admin_login) stale_login_page
      = (Ret tt, w') /\
    user w' = Some (mkUser (l_user_id admin_login) (l_email admin_login)
                           (l_name admin_login) (l_role admin_login)) /\
    storage w' !! "access_token" = Some (l_access_token admin_login) /\
    storage w' !! "user_role" = Some (l_role admin_login) /\
    storage w' !! "user_name" = Some (l_name admin_login) /\
    storage w' !! "login_time"
      = Some (JS.toString (clock stale_login_page)) /\
    JS.parseInt (JS.toString (clock stale_login_page))
      = Some (clock stale_login_page) /\
    ((l_role admin_login = "admin" /\ pathname w' = "/admin/dashboard") \/
     (l_role admin_login <> "admin" /\ pathname w' = "/student/dashboard")) /\
    (Some "admin" = None \/ Some "admin" = Some "" \/
     Some "admin" = Some (l_role admin_login)).
Proof.
  split; [reflexivity |].
  apply (login_establishes_session stale_login_page (Some "admin")
           admin_login).
  reflexivity.
Defined.

Lemma login_resume_denied_run w r response :
  role_denied r (l_role response) = true ->
  exists message,
    login_resume r (Fulfilled response) w = (Throw message, w) /\
    message <> "".
Proof.
  intros Hp.
  cbv beta iota delta [login_resume try_catch bind await ret].
  rewrite check_expected_role_spec, Hp.
  eexists. split; [reflexivity |]. done.
Qed.

(** X4. [login] is all or nothing.  Whatever the backend answers and
    whatever [expectedRole] is, either it throws an error with a non-empty
    message and identity, storage, location and history are exactly as
    before, or it ends without error with the identity set and all four
    session keys stored.  A rejection by the backend always takes the first
    course, with the backend's message, or "Login failed" when that message
    is empty. *)
Theorem login_all_or_nothing (w : World) (r : option string)
    (p : Settled LoginResponse) :
  ((exists message,
      login_resume r p w = (Throw message, w) /\ message <> "" /\
      match p with
      | Rejected m => message = m \/ (m = "" /\ message = "Login failed")
      | Fulfilled response => role_denied r (l_role response) = true
      end)
   \/ (exists w',
         login_resume r p w = (Ret tt, w') /\
         isAuthenticated w' = true /\
         Forall (fun k => is_Some (storage w' !! k)) session_keys)).
Proof.
  destruct p as [response | m].
  - destruct (role_denied r (l_role response)) eqn:Hp.
    + left. destruct (login_resume_denied_run w r response Hp)
        as (message & Hrun & Hne).
      by exists message.
    + right. eexists. split; [by apply login_resume_accepted_run |].
      rewrite login_resume_accepted_exec by done.
      split; [done |]. cbn [storage]. unfold session_keys.
      repeat (apply Forall_cons; split;
              [rewrite ?lookup_insert_ne by done; rewrite lookup_insert_eq;
               by eexists |]).
      constructor.
  - left. eexists. split; [reflexivity |]. destruct m; cbn; split; auto; done.
Qed.

(** X5. [signup] never establishes a session: whether the backend accepts
    or rejects the registration, identity, storage, location and every
    other field are as before the call; only the history records the call
    and its reply.  A rejection is rethrown with a message that is never
    empty. *)
Theorem signup_establishes_no_session (w : World) (p : Settled unit) :
  exists w',
    step (EvReply TSignup (RSignup p)) (exec signup w) = Some w' /\
    same_state w w' /\
    log w' = log w ++ [CallSignup; Awaited TSignup (RSignup p)] /\
    match p with
    | Fulfilled _ => outcome (signup_resume p) w = Ret tt
    | Rejected m =>
        exists message, outcome (signup_resume p) w = Throw message /\
                        message <> "" /\
                        (message = m \/ (m = "" /\ message = "Signup failed"))
    end.
Proof.
  exists (set_log (log w ++ [CallSignup; Awaited TSignup (RSignup p)]) w).
  split; [| split; [done | split; [done |]]].
  - unfold step. cbn [resume]. unfold signup at 2, api_signup. msimpl.
    rewrite decide_True by multiset_solver.
    unfold signup, api_signup. msimpl.
    replace (exec (signup_resume p) _) with
      (set_log ((log w ++ [CallSignup]) ++ [Awaited TSignup (RSignup p)])
         (set_pending ((pending w ⊎ {[+ TSignup +]}) ∖ {[+ TSignup +]}) w))
      by (by destruct p).
    unfold set_log, set_pending. cbn. f_equal.
    f_equal; [multiset_solver | by rewrite <- app_assoc].
  - destruct p as [[] | m]; [done |]. eexists. split; [reflexivity |].
    destruct m; cbn; split; auto; done.
Qed.

(** ** Startup and provider events *)

(** X6. Mounting the component when the storage holds no usable token (the
    key is absent or holds the empty string) makes no backend call and
    leaves nothing in flight: it only clears [loading]. *)
Theorem mount_without_token (w : World) :
  mounted w = false ->
  storage w !! "access_token" = None \/ storage w !! "access_token" = Some "" ->
  step EvMount w = Some (set_loading false (set_mounted true w)).
Proof.
  intros Hm Htok. unfold step. rewrite Hm, checkAuth_exec.
  cbn [storage set_mounted]. by destruct Htok as [-> | ->].
Qed.

Lemma mount_without_token_witness :
  mounted first_visit = false /\
  (storage first_visit !! "access_token" = None \/
   storage first_visit !! "access_token" = Some "") /\
  step EvMount first_visit
    = Some (set_loading false (set_mounted true first_visit)).
Proof.
  split; [reflexivity |]. split; [by left |].
  apply mount_without_token; [reflexivity | by left].
Defined.

(** X7. A successful startup validation never resets the start of the
    session: a non-empty login time in storage is kept as it is, and only
    when the key is absent or empty is the current time stamped.  Nothing
    else in storage changes, [loading] is cleared and no navigation is
    made. *)
Theorem checkAuth_keeps_login_time (w : World) (response : ValidateResponse) :
  ((exists stored, storage w !! "login_time" = Some stored /\ stored <> "" /\
      storage (exec (checkAuth_resume (Fulfilled response)) w) = storage w)
   \/ ((storage w !! "login_time" = None \/
        storage w !! "login_time" = Some "") /\
       storage (exec (checkAuth_resume (Fulfilled response)) w)
         = <["login_time" := JS.toString (clock w)]> (storage w))) /\
  loading (exec (checkAuth_resume (Fulfilled response)) w) = false /\
  pathname (exec (checkAuth_resume (Fulfilled response)) w) = pathname w /\
  isAuthenticated (exec (checkAuth_resume (Fulfilled response)) w) = true.
Proof.
  rewrite checkAuth_resume_ok_exec, stamp_login_time_exec.
  cbn [storage set_user]. unfold isAuthenticated.
  destruct (storage w !! "login_time") as [[| c s] |] eqn:E;
    cbn [JS.truthy_opt JS.truthy loading pathname user storage set_loading
         set_log set_storage set_user].
  - split; [right; split; [by right | done] | done].
  - split; [left; by exists (String c s) | done].
  - split; [right; split; [by left | done] | done].
Qed.

Lemma onSignedIn_exec w token :
  exec (onSignedIn token) w =
  let w1 := exec stamp_login_time_if_missing (set_loading true w) in
  mkWorld (user w1) true (lastActivity w1)
          (<["access_token" := token]> (storage w1)) (pathname w1)
          (clock w1) (provider_session w1)
          (provider_online w1) (mounted w1)
          (pending w1 ⊎ {[+ TSignedIn +]})
          (log w1 ++ [SetItem "access_token" token;
                      CallValidate (bearer_of (Some token))]).
Proof.
  unfold onSignedIn.
  cbv beta iota delta [exec bind setLoading snd].
  rewrite stamp_login_time_run, stamp_login_time_exec.
  destruct (JS.truthy_opt _); msimpl; rewrite lookup_insert_eq;
    by rewrite <- !app_assoc.
Qed.

(** X8. On a provider sign-in the component stores the provider's token,
    overwriting any earlier one, and validates with exactly that token as
    bearer; the identity is not touched until the backend answers, and a
    non-empty login time already in storage is kept. *)
Theorem signed_in_validates_new_token (w : World) (token : string) :
  token <> "" ->
  storage (exec (onSignedIn token) w) !! "access_token" = Some token /\
  last (log (exec (onSignedIn token) w)) = Some (CallValidate (Some token)) /\
  pending (exec (onSignedIn token) w) = pending w ⊎ {[+ TSignedIn +]} /\
  user (exec (onSignedIn token) w) = user w /\
  loading (exec (onSignedIn token) w) = true /\
  ((exists stored, storage w !! "login_time" = Some stored /\ stored <> "" /\
      storage (exec (onSignedIn token) w) !! "login_time" = Some stored)
   \/ ((storage w !! "login_time" = None \/
        storage w !! "login_time" = Some "") /\
       storage (exec (onSignedIn token) w) !! "login_time"
         = Some (JS.toString (clock w)))).
Proof.
  intros Hne. rewrite onSignedIn_exec. cbv zeta.
  cbn [storage log pending user loading].
  destruct (stamp_login_time_facts (set_loading true w))
    as (Hu & Hp & _ & _ & _).
  rewrite Hu, Hp. cbn [user pending set_loading].
  split; [by rewrite lookup_insert_eq |].
  split. { rewrite last_app. by destruct token. }
  do 3 (split; [done |]).
  rewrite lookup_insert_ne by done. rewrite stamp_login_time_exec.
  cbn [storage set_loading].
  destruct (storage w !! "login_time") as [[| c s] |] eqn:E;
    cbn [JS.truthy_opt JS.truthy storage set_log set_storage set_loading].
  - right. split; [by right | by rewrite lookup_insert_eq].
  - left. by exists (String c s).
  - right. split; [by left | by rewrite lookup_insert_eq].
Qed.

Lemma signed_in_validates_new_token_witness :
  "tok-9" <> "" /\
  storage (exec (onSignedIn "tok-9") signed_in_at_1000) !! "access_token"
    = Some "tok-9" /\
  last (log (exec (onSignedIn "tok-9") signed_in_at_1000))
    = Some (CallValidate (Some "tok-9")) /\
  pending (exec (onSignedIn "tok-9") signed_in_at_1000)
    = pending signed_in_at_1000 ⊎ {[+ TSignedIn +]} /\
  user (exec (onSignedIn "tok-9") signed_in_at_1000)
    = user signed_in_at_1000 /\
  loading (exec (onSignedIn "tok-9") signed_in_at_1000) = true /\
  ((exists stored,
      storage signed_in_at_1000 !! "login_time" = Some stored /\
      stored <> "" /\
      storage (exec (onSignedIn "tok-9") signed_in_at_1000) !! "login_time"
        = Some stored)
   \/ ((storage signed_in_at_1000 !! "login_time" = None \/
        storage signed_in_at_1000 !! "login_time" = Some "") /\
       storage (exec (onSignedIn "tok-9") signed_in_at_1000) !! "login_time"
         = Some (JS.toString (clock signed_in_at_1000)))).
Proof.
  split; [discriminate |].
  apply (signed_in_validates_new_token signed_in_at_1000 "tok-9").
  discriminate.
Defined.

Lemma onSignedIn_resume_ok_exec w response :
  exec (onSignedIn_resume (Fulfilled response)) w =
  let on_entry :=
    (pathname w =? "/login")%string || (pathname w =? "/signup")%string in
  let target :=
    if (v_role response =? "admin")%string
    then "/admin/dashboard" else "/student/dashboard" in
  mkWorld (Some (mkUser (v_user_id response) (v_email response)
                        (v_name response) (v_role response)))
          false (lastActivity w)
          (<["user_name" := v_name response]>
             (<["user_role" := v_role response]> (storage w)))
          (if on_entry then target else pathname w)
          (clock w) (provider_session w)
          (provider_online w) (mounted w) (pending w)
          (log w ++ [SetItem "user_role" (v_role response);
                     SetItem "user_name" (v_name response)]
                 ++ (if on_entry then [Push target] else [])).
Proof.
  unfold onSignedIn_resume. mrun. cbv zeta.
  destruct ((pathname w =? "/login")%string
            || (pathname w =? "/signup")%string);
    [destruct (v_role response =? "admin")%string |]; msimpl;
    by rewrite <- ?app_assoc, ?app_nil_r.
Qed.

(** X9. When the backend approves a provider sign-in, the identity takes
    the name the backend returned (unlike the startup validation), the
    role and the name are stored, and the user is sent to the dashboard of
    the role only from the login or signup page; on any other page the
    location stays as it is. *)
Theorem signed_in_approved (w : World) (response : ValidateResponse) :
  user (exec (onSignedIn_resume (Fulfilled response)) w)
    = Some (mkUser (v_user_id response) (v_email response)
                   (v_name response) (v_role response)) /\
  storage (exec (onSignedIn_resume (Fulfilled response)) w)
    = <["user_name" := v_name response]>
        (<["user_role" := v_role response]> (storage w)) /\
  loading (exec (onSignedIn_resume (Fulfilled response)) w) = false /\
  (((pathname w = "/login" \/ pathname w = "/signup") /\
    ((v_role response = "admin" /\
      pathname (exec (onSignedIn_resume (Fulfilled response)) w)
        = "/admin/dashboard") \/
     (v_role response <> "admin" /\
      pathname (exec (onSignedIn_resume (Fulfilled response)) w)
        = "/student/dashboard")))
   \/ (pathname w <> "/login" /\ pathname w <> "/signup" /\
       pathname (exec (onSignedIn_resume (Fulfilled response)) w)
         = pathname w /\
       log (exec (onSignedIn_resume (Fulfilled response)) w)
         = log w ++ [SetItem "user_role" (v_role response);
                     SetItem "user_name" (v_name response)])).
Proof.
  rewrite onSignedIn_resume_ok_exec. cbv zeta.
  cbn [user storage loading pathname log].
  do 3 (split; [done |]).
  destruct (String.eqb_spec (pathname w) "/login") as [Hl | Hl];
    [| destruct (String.eqb_spec (pathname w) "/signup") as [Hs | Hs]];
    cbn [orb].
  - left. split; [by left |].
    destruct (String.eqb_spec (v_role response) "admin"); [by left | by right].
  - left. split; [by right |].
    destruct (String.eqb_spec (v_role response) "admin"); [by left | by right].
  - right. by rewrite app_nil_r.
Qed.

(** X10. When the backend rejects a provider sign-in, the component calls
    the provider's sign-out and waits for it: the four keys are removed only
    once that call has settled.  Whatever the sign-out reports (the value
    is not looked at), the component is then unauthenticated with the four
    keys absent (the token it had just stored included) and [loading]
    cleared; it does not navigate, and the tasks in flight are those there
    were before the event. *)
Theorem signed_in_rejected_cleans_up (w : World) (token m : string) :
  mounted w = true ->
  exists w',
    run [EvAuth (SIGNED_IN (Some token));
         EvReply TSignedIn (RValidate (Rejected m));
         EvReply TSignedInCatch RSignOut] w = Some w' /\
    user w' = None /\ keys_absent (storage w') /\
    loading w' = false /\
    pathname w' = pathname w /\ pending w' = pending w /\
    (exists h,
       log w' = log w ++ h ++
                [Awaited TSignedIn (RValidate (Rejected m));
                 CallSignOut;
                 Awaited TSignedInCatch RSignOut;
                 RemoveItem "access_token"; RemoveItem "user_role";
                 RemoveItem "user_name"; RemoveItem "login_time"]) /\
    Forall (fun e => forall path, e <> Push path)
           (drop (length (log w)) (log w')).
Proof.
  intros Hm. eexists. split.
  - cbn [run step onAuthStateChange provider_reports]. rewrite Hm.
    destruct (onSignedIn_facts (set_provider_session true w) token)
      as (_ & _ & Hp & _).
    cbn [resume]. rewrite decide_True by (rewrite Hp; multiset_solver).
    cbn [onSignedIn_resume]. unfold supabase_signOut at 1 2. msimpl.
    rewrite decide_True by multiset_solver.
    rewrite onSignedIn_catch_resume_exec. reflexivity.
  - cbn [user storage loading pathname pending log].
    rewrite onSignedIn_exec. cbv zeta.
    cbn [pending log pathname].
    destruct (stamp_login_time_facts
                (set_loading true (set_provider_session true w)))
      as (_ & Hp & _ & _ & _).
    rewrite Hp. cbn [pending set_loading set_provider_session].
    split; [done |]. split; [apply purged_keys_absent |].
    split; [done |].
    split.
    { rewrite stamp_login_time_exec. by destruct (JS.truthy_opt _). }
    split; [multiset_solver |].
    rewrite stamp_login_time_exec.
    destruct (JS.truthy_opt _); msimpl; rewrite <- !app_assoc;
      (split; [eexists; f_equal; rewrite app_assoc; reflexivity |]);
      rewrite drop_app_length; by repeat constructor.
Qed.

Lemma signed_in_rejected_cleans_up_witness :
  mounted signed_in_at_1000 = true /\
  exists w',
    run [EvAuth (SIGNED_IN (Some "tok-9"));
         EvReply TSignedIn (RValidate (Rejected "Unauthorized"));
         EvReply TSignedInCatch RSignOut] signed_in_at_1000 = Some w' /\
    user w' = None /\ keys_absent (storage w') /\
    loading w' = false /\
    pathname w' = pathname signed_in_at_1000 /\
    pending w' = pending signed_in_at_1000 /\
    (exists h,
       log w' = log signed_in_at_1000 ++ h ++
                [Awaited TSignedIn (RValidate (Rejected "Unauthorized"));
                 CallSignOut;
                 Awaited TSignedInCatch RSignOut;
                 RemoveItem "access_token"; RemoveItem "user_role";
                 RemoveItem "user_name"; RemoveItem "login_time"]) /\
    Forall (fun e => forall path, e <> Push path)
           (drop (length (log signed_in_at_1000)) (log w')).
Proof.
  split; [reflexivity |].
  apply (signed_in_rejected_cleans_up signed_in_at_1000 "tok-9"
           "Unauthorized").
  reflexivity.
Defined.

(** X11. The handler of the provider's sign-out event leaves the same
    identity, storage, location and [loading] as a [logout()] run to its
    end from the same state; unlike [logout()] it makes no call to the
    provider and leaves the provider session flag as it is. *)
Theorem signed_out_event_like_logout (w : World) :
  exists w1,
    logout_to_completion w = Some w1 /\
    user (exec onSignedOut w) = user w1 /\
    storage (exec onSignedOut w) = storage w1 /\
    pathname (exec onSignedOut w) = pathname w1 /\
    loading (exec onSignedOut w) = loading w1 /\
    pending (exec onSignedOut w) = pending w1 /\
    provider_session (exec onSignedOut w) = provider_session w /\
    log (exec onSignedOut w)
      = log w ++ [RemoveItem "access_token"; RemoveItem "user_role";
                  RemoveItem "user_name"; RemoveItem "login_time";
                  Push "/login"].
Proof.
  eexists. split; [apply logout_to_completion_eq |].
  by rewrite onSignedOut_exec.
Qed.

(** ** Timers and activity *)

Lemma checkTimers_idle w :
  clock w - lastActivity w <= INACTIVITY_LIMIT ->
  (forall stored t,
     storage w !! "login_time" = Some stored ->
     JS.parseInt stored = Some t -> clock w - t <= MAX_SESSION) ->
  exec checkTimers w = w.
Proof.
  intros Hact Hage. rewrite checkTimers_exec.
  replace (INACTIVITY_LIMIT <? clock w - lastActivity w) with false
    by (symmetry; apply Z.ltb_ge; lia).
  cbn [exec ret snd].
  destruct (storage w !! "login_time") as [stored |] eqn:E; [| done].
  destruct (JS.truthy stored); [| done]. cbn [andb].
  destruct (JS.parseInt stored) as [t |] eqn:Ep; [| done].
  cbn [JS.elapsed_gt].
  replace (MAX_SESSION <? clock w - t) with false; [done |].
  symmetry. apply Z.ltb_ge. by apply (Hage stored t).
Qed.

(** X12. A timer check within both limits does nothing: when at most ten
    minutes have passed since the last activity and the login time in
    storage, read as a number, is at most thirty minutes old, the state is
    unchanged and no logout is called.  The same holds when the login time
    is absent, empty or not a number: the session-length limit then never
    fires, however old the session is. *)
Theorem timers_within_limits_do_nothing (w : World) :
  clock w - lastActivity w <= INACTIVITY_LIMIT ->
  (forall stored t,
     storage w !! "login_time" = Some stored ->
     JS.parseInt stored = Some t -> clock w - t <= MAX_SESSION) ->
  exec checkTimers w = w /\
  (isAuthenticated w = true -> step EvTick w = Some w).
Proof.
  intros Hact Hage. pose proof (checkTimers_idle w Hact Hage) as Hexec.
  split; [done |]. intros Hauth. unfold step. by rewrite Hauth, Hexec.
Qed.

Lemma timers_within_limits_do_nothing_witness :
  clock signed_in_at_1000 - lastActivity signed_in_at_1000
    <= INACTIVITY_LIMIT /\
  (forall stored t,
     storage signed_in_at_1000 !! "login_time" = Some stored ->
     JS.parseInt stored = Some t ->
     clock signed_in_at_1000 - t <= MAX_SESSION) /\
  exec checkTimers signed_in_at_1000 = signed_in_at_1000 /\
  (isAuthenticated signed_in_at_1000 = true ->
   step EvTick signed_in_at_1000 = Some signed_in_at_1000).
Proof.
  assert (forall stored t,
            storage signed_in_at_1000 !! "login_time" = Some stored ->
            JS.parseInt stored = Some t ->
            clock signed_in_at_1000 - t <= MAX_SESSION) as Hage.
  { intros stored t Hs Hp.
    assert (stored = "1000") as -> by (by injection Hs).
    assert (t = 1000) as -> by (by injection Hp). by vm_compute. }
  split; [by vm_compute |]. split; [exact Hage |].
  apply timers_within_limits_do_nothing; [by vm_compute | exact Hage].
Defined.

(** X13. A timer check beyond both limits calls [logout()] twice, so the
    provider sign-out is called twice; once both have settled the state is
    the one a single [logout()] run to its end would have left. *)
Theorem tick_beyond_both_limits (w : World) (T : Z) :
  isAuthenticated w = true ->
  storage w !! "login_time" = Some (JS.toString T) ->
  T + MAX_SESSION < clock w ->
  lastActivity w + INACTIVITY_LIMIT < clock w ->
  exists w1 w2 w3,
    step EvTick w = Some w1 /\
    log w1 = log w ++ [CallSignOut; CallSignOut] /\
    pending w1 = pending w ⊎ {[+ TLogout; TLogout +]} /\
    run [EvReply TLogout RSignOut; EvReply TLogout RSignOut] w1 = Some w2 /\
    logout_to_completion w = Some w3 /\
    same_state w3 w2.
Proof.
  intros Hauth Hlt Hage Hact.
  assert (exec checkTimers w =
          set_pending (pending w ⊎ {[+ TLogout; TLogout +]})
            (set_log (log w ++ [CallSignOut; CallSignOut]) w)) as Hexec.
  { rewrite checkTimers_exec, Hlt, toString_truthy, parseInt_toString.
    replace (INACTIVITY_LIMIT <? clock w - lastActivity w) with true
      by (symmetry; apply Z.ltb_lt; lia).
    replace (JS.elapsed_gt (clock w) (Some T) MAX_SESSION) with true
      by (symmetry; apply Z.ltb_lt; lia).
    cbn [andb]. rewrite !logout_exec. unfold set_pending, set_log.
    cbn [user loading lastActivity storage pathname clock provider_session
         provider_online mounted pending log exec ret snd].
    f_equal.
    - multiset_solver.
    - by rewrite <- app_assoc. }
  exists (set_pending (pending w ⊎ {[+ TLogout; TLogout +]})
            (set_log (log w ++ [CallSignOut; CallSignOut]) w)).
  exists (mkWorld None (loading w) (lastActivity w) (purged (storage w))
            "/login" (clock w)
            (provider_session w && negb (provider_online w))
            (provider_online w) (mounted w) (pending w)
            (log w ++ [CallSignOut; CallSignOut;
                       Awaited TLogout RSignOut;
                       RemoveItem "access_token"; RemoveItem "user_role";
                       RemoveItem "user_name"; RemoveItem "login_time";
                       Push "/login";
                       Awaited TLogout RSignOut;
                       RemoveItem "access_token"; RemoveItem "user_role";
                       RemoveItem "user_name"; RemoveItem "login_time";
                       Push "/login"])).
  eexists.
  split; [unfold step; by rewrite Hauth, Hexec |].
  split; [done |]. split; [done |].
  split.
  { cbn [run step resume]. msimpl.
    rewrite decide_True by multiset_solver.
    rewrite logout_resume_exec. msimpl.
    rewrite decide_True by multiset_solver.
    rewrite logout_resume_exec. msimpl.
    rewrite purged_idemp, <- andb_assoc, andb_diag. f_equal. f_equal.
    - multiset_solver.
    - by rewrite <- !app_assoc. }
  split; [apply logout_to_completion_eq |].
  reflexivity.
Qed.

Lemma tick_beyond_both_limits_witness :
  isAuthenticated (set_clock (1000 + 31 * 60 * 1000) signed_in_at_1000)
    = true /\
  storage (set_clock (1000 + 31 * 60 * 1000) signed_in_at_1000)
    !! "login_time" = Some (JS.toString 1000) /\
  1000 + MAX_SESSION
    < clock (set_clock (1000 + 31 * 60 * 1000) signed_in_at_1000) /\
  lastActivity (set_clock (1000 + 31 * 60 * 1000) signed_in_at_1000)
    + INACTIVITY_LIMIT
    < clock (set_clock (1000 + 31 * 60 * 1000) signed_in_at_1000) /\
  exists w1 w2 w3,
    step EvTick (set_clock (1000 + 31 * 60 * 1000) signed_in_at_1000)
      = Some w1 /\
    log w1 = log (set_clock (1000 + 31 * 60 * 1000) signed_in_at_1000)
               ++ [CallSignOut; CallSignOut] /\
    pending w1 = pending (set_clock (1000 + 31 * 60 * 1000) signed_in_at_1000)
                   ⊎ {[+ TLogout; TLogout +]} /\
    run [EvReply TLogout RSignOut; EvReply TLogout RSignOut] w1 = Some w2 /\
    logout_to_completion (set_clock (1000 + 31 * 60 * 1000) signed_in_at_1000)
      = Some w3 /\
    same_state w3 w2.
Proof.
  split; [reflexivity |]. split; [reflexivity |].
  split; [reflexivity |]. split; [reflexivity |].
  apply (tick_beyond_both_limits
           (set_clock (1000 + 31 * 60 * 1000) signed_in_at_1000) 1000);
    reflexivity.
Defined.

(** X14. Recorded activity restarts the inactivity limit: after an
    activity event, a timer check that runs at most ten minutes later calls
    no logout, provided the session-length limit is not exceeded at that
    time. *)
Theorem activity_restarts_inactivity_limit (w : World) (t : Z) :
  isAuthenticated w = true ->
  t - clock w <= INACTIVITY_LIMIT ->
  (forall stored t0,
     storage w !! "login_time" = Some stored ->
     JS.parseInt stored = Some t0 -> t - t0 <= MAX_SESSION) ->
  run [EvActivity; EvClock t; EvTick] w
  = Some (set_clock t (set_lastActivity (clock w) w)).
Proof.
  intros Hauth Hact Hage.
  cbn [run step]. rewrite Hauth.
  change (exec handleActivity w) with (set_lastActivity (clock w) w).
  change (isAuthenticated (set_clock t (set_lastActivity (clock w) w)))
    with (isAuthenticated w).
  rewrite Hauth.
  by rewrite (checkTimers_idle (set_clock t (set_lastActivity (clock w) w))).
Qed.

Lemma activity_restarts_inactivity_limit_witness :
  isAuthenticated signed_in_at_1000 = true /\
  (1000 + 5 * 60 * 1000) - clock signed_in_at_1000 <= INACTIVITY_LIMIT /\
  (forall stored t0,
     storage signed_in_at_1000 !! "login_time" = Some stored ->
     JS.parseInt stored = Some t0 ->
     (1000 + 5 * 60 * 1000) - t0 <= MAX_SESSION) /\
  run [EvActivity; EvClock (1000 + 5 * 60 * 1000); EvTick] signed_in_at_1000
  = Some (set_clock (1000 + 5 * 60 * 1000)
            (set_lastActivity (clock signed_in_at_1000) signed_in_at_1000)).
Proof.
  assert (forall stored t0,
            storage signed_in_at_1000 !! "login_time" = Some stored ->
            JS.parseInt stored = Some t0 ->
            (1000 + 5 * 60 * 1000) - t0 <= MAX_SESSION) as Hage.
  { intros stored t0 Hs Hp.
    assert (stored = "1000") as -> by (by injection Hs).
    assert (t0 = 1000) as -> by (by injection Hp). by vm_compute. }
  split; [reflexivity |]. split; [by vm_compute |]. split; [exact Hage |].
  apply activity_restarts_inactivity_limit;
    [reflexivity | by vm_compute | exact Hage].
Defined.

(** X15. A login does not restart the inactivity limit: when the last
    recorded activity is more than ten minutes old at the time a login
    completes (activity is not recorded while nobody is signed in), the
    first timer check that runs before any new activity calls [logout()] on
    the session just established. *)
Theorem login_keeps_stale_activity_time (w : World) (r : option string)
    (response : LoginResponse) :
  TLogin r ∈ pending w ->
  role_denied r (l_role response) = false ->
  lastActivity w + INACTIVITY_LIMIT < clock w ->
  exists w1 w2,
    step (EvReply (TLogin r) (RLogin (Fulfilled response))) w = Some w1 /\
    isAuthenticated w1 = true /\
    lastActivity w1 = lastActivity w /\
    step EvTick w1 = Some w2 /\
    (multiplicity TLogout (pending w1)
     < multiplicity TLogout (pending w2))%nat /\
    last (log w2) = Some CallSignOut.
Proof.
  intros Hin Hp Hidle.
  eexists. eexists. split.
  { unfold step. cbn [resume]. rewrite decide_True by done.
    rewrite login_resume_accepted_exec by done. reflexivity. }
  cbn [lastActivity set_log set_pending].
  split; [done |]. split; [done |]. split.
  { unfold step, isAuthenticated. cbn [user]. reflexivity. }
  rewrite checkTimers_exec.
  cbn [clock lastActivity storage set_log set_pending].
  replace (INACTIVITY_LIMIT <? clock w - lastActivity w) with true
    by (symmetry; apply Z.ltb_lt; lia).
  rewrite lookup_insert_eq, toString_truthy, parseInt_toString.
  replace (JS.elapsed_gt (clock w) (Some (clock w)) MAX_SESSION) with false
    by (symmetry; apply Z.ltb_ge; unfold MAX_SESSION; lia).
  cbn [andb]. rewrite logout_exec. msimpl.
  split; [| apply last_snoc].
  rewrite multiplicity_disj_union, multiplicity_singleton_eq. lia.
Qed.

Lemma login_keeps_stale_activity_time_witness :
  TLogin (Some "admin") ∈ pending stale_login_page /\
  role_denied (Some "admin") (l_role admin_login) = false /\
  lastActivity stale_login_page + INACTIVITY_LIMIT < clock stale_login_page /\
  exists w1 w2,
    step (EvReply (TLogin (Some "admin")) (RLogin (Fulfilled admin_login)))
         stale_login_page = Some w1 /\
    isAuthenticated w1 = true /\
    lastActivity w1 = lastActivity stale_login_page /\
    step EvTick w1 = Some w2 /\
    (multiplicity TLogout (pending w1)
     < multiplicity TLogout (pending w2))%nat /\
    last (log w2) = Some CallSignOut.
Proof.
  assert (TLogin (Some "admin") ∈ pending stale_login_page) as Hin.
  { change (pending stale_login_page)
      with (∅ ⊎ {[+ TLogin (Some "admin") +]} : gmultiset Task).
    multiset_solver. }
  split; [exact Hin |]. split; [reflexivity |]. split; [by vm_compute |].
  apply login_keeps_stale_activity_time;
    [exact Hin | reflexivity | by vm_compute].
Defined.

(** X16. The role flags of the context are exclusive and imply
    authentication: [isAdmin] and [isStudent] are never both true, each of
    them implies [isAuthenticated], and an identity whose role is neither
    "admin" nor "student" is authenticated with both flags false. *)
Theorem role_flags_exclusive (w : World) :
  isAdmin w && isStudent w = false /\
  implb (isAdmin w || isStudent w) (isAuthenticated w) = true /\
  match user w with
  | Some u =>
      isAuthenticated w = true /\
      (role u = "admin" \/ role u = "student" \/
       (isAdmin w = false /\ isStudent w = false))
  | None => isAdmin w = false /\ isStudent w = false
  end.
Proof.
  unfold isAdmin, isStudent, isAuthenticated.
  destruct (user w) as [u |]; [| done].
  destruct (String.eqb_spec (role u) "admin") as [-> | Ha];
    destruct (String.eqb_spec (role u) "student") as [Hs | Hs];
    try discriminate Hs; cbn; auto 10.
Qed.

(** ** Request headers *)

(** X17. Whenever the stored token is non-empty, [request] sends it as
    the bearer header, overriding an [Authorization] header the caller put
    in its options; the caller's other headers are sent as given, and the
    content type is JSON unless the caller gave another one. *)
Theorem request_headers_bearer (token : string)
    (given : option (gmap string string)) :
  token <> "" ->
  request_headers (Some token) given !! "Authorization"
    = Some ("Bearer " ++ token)%string /\
  (forall k, k <> "Authorization" -> k <> "Content-Type" ->
     request_headers (Some token) given !! k = (given ≫= (.!! k))) /\
  request_headers (Some token) given !! "Content-Type"
    = Some (default "application/json" (given ≫= (.!! "Content-Type"))).
Proof.
  intros Hne. unfold request_headers.
  replace (JS.truthy token) with true by (by destruct token).
  split; [by rewrite lookup_insert_eq |]. split.
  - intros k Hk1 Hk2. rewrite lookup_insert_ne by done.
    destruct given as [g |]; cbn.
    + rewrite lookup_union, lookup_singleton_ne by done.
      by destruct (g !! k).
    + by rewrite lookup_singleton_ne.
  - rewrite lookup_insert_ne by done. destruct given as [g |]; cbn.
    + rewrite lookup_union, lookup_singleton_eq.
      by destruct (g !! "Content-Type").
    + by rewrite lookup_singleton_eq.
Qed.

Lemma request_headers_bearer_witness :
  "tok-1" <> "" /\
  request_headers (Some "tok-1")
    (Some {[ "Authorization" := "Basic abc" ]}) !! "Authorization"
    = Some ("Bearer " ++ "tok-1")%string.
Proof.
  split; [discriminate |].
  apply (request_headers_bearer "tok-1"
           (Some {[ "Authorization" := "Basic abc" ]})).
  discriminate.
Defined.

(** X18. Requests follow the session: after a login that went through
    with a non-empty token, every request carries that token as bearer;
    after a [logout()] run to its end, a request made without headers of
    its own carries no [Authorization] header. *)
Theorem requests_follow_session (w : World) (r : option string)
    (response : LoginResponse) (given : option (gmap string string)) :
  role_denied r (l_role response) = false ->
  l_access_token response <> "" ->
  request_headers_in (exec (login_resume r (Fulfilled response)) w) given
    !! "Authorization"
    = Some ("Bearer " ++ l_access_token response)%string /\
  exists w',
    logout_to_completion
      (exec (login_resume r (Fulfilled response)) w) = Some w' /\
    request_headers_in w' None !! "Authorization" = None /\
    request_headers_in w' None
      = {[ "Content-Type" := "application/json" ]}.
Proof.
  intros Hp Hne. rewrite login_resume_accepted_exec by done.
  unfold request_headers_in. cbn [storage]. split.
  - rewrite !lookup_insert_ne, lookup_insert_eq by done.
    unfold request_headers.
    replace (JS.truthy (l_access_token response)) with true
      by (by destruct (l_access_token response)).
    by rewrite lookup_insert_eq.
  - eexists. split; [apply logout_to_completion_eq |].
    cbn [storage]. rewrite purged_no_token. done.
Qed.

Lemma requests_follow_session_witness :
  role_denied (Some "admin") (l_role admin_login) = false /\
  l_access_token admin_login <> "" /\
  request_headers_in
    (exec (login_resume (Some "admin") (Fulfilled admin_login))
          stale_login_page) None !! "Authorization"
    = Some ("Bearer " ++ l_access_token admin_login)%string.
Proof.
  split; [reflexivity |]. split; [discriminate |].
  apply (requests_follow_session stale_login_page (Some "admin")
           admin_login None); [reflexivity | discriminate].
Defined.

(** ** The student list *)

Lemma prefix_refl s : String.prefix s s = true.
Proof.
  induction s as [| c s IH]; [done |]. cbn.
  destruct (ascii_dec c c); [done | congruence].
Qed.

Lemma prefix_app_l a b s :
  String.prefix (a ++ b)%string s = true -> String.prefix a s = true.
Proof.
  revert s. induction a as [| c a IH]; intros s; [by destruct s |].
  destruct s as [| c' s]; simpl; [done |].
  destruct (ascii_dec c c'); [apply IH | done].
Qed.

Lemma includes_empty s : Students.includes s "" = true.
Proof. by destruct s. Qed.

Lemma includes_refl s : Students.includes s s = true.
Proof.
  destruct s as [| c s]; [done |].
  cbn [Students.includes]. by rewrite prefix_refl.
Qed.

Lemma includes_app_l s a b :
  Students.includes s (a ++ b)%string = true -> Students.includes s a = true.
Proof.
  induction s as [| c s IH]; cbn [Students.includes].
  - rewrite !orb_false_r. apply prefix_app_l.
  - intros [Hp | Hi]%orb_true_iff; apply orb_true_iff.
    + left. by eapply prefix_app_l.
    + right. by apply IH.
Qed.

Lemma includes_empty_only needle :
  Students.includes "" needle = true -> needle = "".
Proof. by destruct needle. Qed.

Lemma toLowerCase_empty s : Students.toLowerCase s = "" -> s = "".
Proof. by destruct s. Qed.

Lemma filter_all {A} (p : A -> bool) l :
  (forall x, p x = true) -> List.filter p l = l.
Proof.
  intros Hp. induction l as [| x l IH]; [done |].
  cbn. by rewrite Hp, IH.
Qed.

Lemma filter_narrows {A} (p q : A -> bool) l :
  (forall x, p x = true -> q x = true) ->
  sublist (List.filter p l) (List.filter q l).
Proof.
  intros Hpq. induction l as [| x l IH]; [constructor |].
  cbn. destruct (p x) eqn:Hx.
  - rewrite (Hpq x Hx). by constructor.
  - destruct (q x); [by constructor | done].
Qed.

(** X19. With an empty search box the student list is shown whole, and
    the students shown are always among those loaded, in the same order.
    A query whose lower-case form begins with the lower-case form of
    another query shows only students that the other query shows too: this
    is so when a query of unaccented Latin letters is typed further.  (The
    lower-case form of a longer query does not extend that of a shorter one
    in general: a Greek capital sigma is lowered according to what follows
    it.) *)
Theorem student_search_narrows (students : list Students.Student)
    (query longer rest : string) :
  Students.toLowerCase longer
  = (Students.toLowerCase query ++ rest)%string ->
  Students.filteredStudents students "" = students /\
  sublist (Students.filteredStudents students longer)
          (Students.filteredStudents students query) /\
  sublist (Students.filteredStudents students query) students.
Proof.
  intros Hlonger. unfold Students.filteredStudents. split; [| split].
  - apply filter_all. intros st. unfold Students.matches.
    cbn [Students.toLowerCase]. by rewrite includes_empty.
  - apply filter_narrows. intros st. unfold Students.matches.
    rewrite Hlonger.
    intros [H | H]%orb_true_iff; apply orb_true_iff;
      [left | right]; by eapply includes_app_l.
  - induction students as [| st l IH]; [constructor |].
    cbn. destruct (Students.matches query st); by constructor.
Qed.

Lemma student_search_narrows_witness :
  Students.toLowerCase "ADA" = (Students.toLowerCase "Ad" ++ "a")%string /\
  Students.filteredStudents [nameless_student; student_ada] ""
  = [nameless_student; student_ada] /\
  sublist (Students.filteredStudents [nameless_student; student_ada] "ADA")
          (Students.filteredStudents [nameless_student; student_ada] "Ad") /\
  sublist (Students.filteredStudents [nameless_student; student_ada] "Ad")
          [nameless_student; student_ada].
Proof.
  split; [reflexivity |].
  apply (student_search_narrows [nameless_student; student_ada]
           "Ad" "ADA" "a").
  reflexivity.
Defined.

(** X20. The search ignores letter case on both sides: a student is
    shown whenever the query equals the student's name or email up to
    letter case. *)
Theorem student_found_by_name_or_email (students : list Students.Student)
    (st : Students.Student) (query field : string) :
  st ∈ students ->
  Students.name st = Some field \/ Students.email st = Some field ->
  field <> "" ->
  Students.toLowerCase query = Students.toLowerCase field ->
  st ∈ Students.filteredStudents students query.
Proof.
  intros Hin Hfield Hne Hq. unfold Students.filteredStudents.
  apply list_elem_of_In, filter_In. split; [by apply list_elem_of_In |].
  unfold Students.matches. rewrite Hq. apply orb_true_iff.
  assert (JS.or_else (Some field) "" = field) as Hor by (by destruct field).
  destruct Hfield as [-> | ->]; [left | right];
    rewrite Hor; apply includes_refl.
Qed.

Lemma student_found_by_name_or_email_witness :
  student_ada ∈ [nameless_student; student_ada] /\
  (Students.name student_ada = Some "Ada Lovelace" \/
   Students.email student_ada = Some "Ada Lovelace") /\
  "Ada Lovelace" <> "" /\
  Students.toLowerCase "ADA lovelace" = Students.toLowerCase "Ada Lovelace" /\
  student_ada
    ∈ Students.filteredStudents [nameless_student; student_ada] "ADA lovelace".
Proof.
  assert (student_ada ∈ [nameless_student; student_ada]) as Hin
    by (by repeat constructor).
  split; [exact Hin |]. split; [by left |]. split; [discriminate |].
  split; [reflexivity |].
  apply (student_found_by_name_or_email _ student_ada "ADA lovelace"
           "Ada Lovelace"); [exact Hin | by left | discriminate | reflexivity].
Defined.

(** X21. A student record with neither name nor email is shown for the
    empty query only. *)
Theorem student_without_fields (st : Students.Student) (query : string) :
  Students.name st = None -> Students.email st = None ->
  (Students.matches query st = true <-> query = "").
Proof.
  intros Hn He. unfold Students.matches. rewrite Hn, He.
  cbn [JS.or_else Students.toLowerCase]. rewrite orb_diag. split.
  - intros H%includes_empty_only. by apply toLowerCase_empty.
  - by intros ->.
Qed.

Lemma student_without_fields_witness :
  Students.name nameless_student = None /\
  Students.email nameless_student = None /\
  (Students.matches "a" nameless_student = true <-> "a" = "").
Proof.
  split; [reflexivity |]. split; [reflexivity |].
  by apply (student_without_fields nameless_student "a").
Defined.

(** ** Announcements *)

Lemma split_without_sep sep s :
  Announcements.has_char sep s = false -> Announcements.split sep s = [s].
Proof.
  induction s as [| c s IH]; [done |].
  cbn [Announcements.has_char Announcements.split].
  intros [Hc Hs]%orb_false_iff. by rewrite Hc, IH.
Qed.

Lemma split_at_first_sep sep t r :
  Announcements.has_char sep t = false ->
  Announcements.split sep (t ++ String sep r)%string
  = t :: Announcements.split sep r.
Proof.
  induction t as [| c t IH].
  - intros _. change ("" ++ String sep r)%string with (String sep r).
    cbn [Announcements.split]. by rewrite Ascii.eqb_refl.
  - change (String c t ++ String sep r)%string
      with (String c (t ++ String sep r)).
    cbn [Announcements.has_char Announcements.split].
    intros [Hc Ht]%orb_false_iff. by rewrite Hc, IH.
Qed.

(** X22. An announcement stored as "title:body" in its message, with no
    title field, is shown with that title and that body when neither part
    is empty nor contains a colon; anything after a second colon is not
    shown at all. *)
Theorem announcement_title_body (t b rest : string) :
  t <> "" -> b <> "" ->
  Announcements.has_char ":" t = false ->
  Announcements.has_char ":" b = false ->
  Announcements.shown_title
    (Announcements.mkAnnouncement None (Some (t ++ ":" ++ b)%string)) = t /\
  Announcements.shown_body
    (Announcements.mkAnnouncement None (Some (t ++ ":" ++ b)%string))
    = Some b /\
  Announcements.shown_title
    (Announcements.mkAnnouncement None
       (Some (t ++ ":" ++ b ++ ":" ++ rest)%string)) = t /\
  Announcements.shown_body
    (Announcements.mkAnnouncement None
       (Some (t ++ ":" ++ b ++ ":" ++ rest)%string)) = Some b.
Proof.
  intros Ht Hb Hct Hcb.
  unfold Announcements.shown_title, Announcements.shown_body,
    Announcements.message_part.
  cbn [Announcements.title Announcements.message JS.or_else].
  change (t ++ ":" ++ b)%string with (t ++ String ":" b)%string.
  change (t ++ ":" ++ b ++ ":" ++ rest)%string
    with (t ++ String ":" (b ++ String ":" rest))%string.
  rewrite !split_at_first_sep, split_without_sep by done.
  cbn [nth_error]. destruct t; [done |]. by destruct b.
Qed.

Lemma announcement_title_body_witness :
  "Library closed" <> "" /\ "Reopens on Monday" <> "" /\
  Announcements.has_char ":" "Library closed" = false /\
  Announcements.has_char ":" "Reopens on Monday" = false /\
  Announcements.shown_body
    (Announcements.mkAnnouncement None
       (Some ("Library closed" ++ ":" ++ "Reopens on Monday" ++ ":"
              ++ " 9:00")%string))
    = Some "Reopens on Monday".
Proof.
  split; [discriminate |]. split; [discriminate |].
  split; [reflexivity |]. split; [reflexivity |].
  apply (announcement_title_body "Library closed" "Reopens on Monday"
           " 9:00"); (discriminate || reflexivity).
Defined.

(** X23. An announcement whose message has no colon and which has no
    title field shows the whole message twice, as title and as body (the
    title is "No Title" when the message is empty); one with no message at
    all shows "No Title" and no body. *)
Theorem announcement_without_colon (m : string) :
  Announcements.has_char ":" m = false ->
  Announcements.shown_body
    (Announcements.mkAnnouncement None (Some m)) = Some m /\
  (m <> "" ->
   Announcements.shown_title
     (Announcements.mkAnnouncement None (Some m)) = m) /\
  Announcements.shown_title
    (Announcements.mkAnnouncement None (Some "")) = "No Title" /\
  Announcements.shown_title (Announcements.mkAnnouncement None None)
    = "No Title" /\
  Announcements.shown_body (Announcements.mkAnnouncement None None) = None.
Proof.
  intros Hc.
  unfold Announcements.shown_title, Announcements.shown_body,
    Announcements.message_part.
  cbn [Announcements.title Announcements.message JS.or_else].
  rewrite split_without_sep by done. cbn [nth_error].
  split; [done |]. split; [| done]. by destruct m.
Qed.

Lemma announcement_without_colon_witness :
  Announcements.has_char ":" "Welcome back" = false /\
  Announcements.shown_body
    (Announcements.mkAnnouncement None (Some "Welcome back"))
    = Some "Welcome back".
Proof.
  split; [reflexivity |].
  by apply (announcement_without_colon "Welcome back").
Defined.

(** ** Resource filters *)

(** X24. Every query parameter [fetchResources] sends is one of title,
    semester and subject, holds the non-empty value of the corresponding
    filter, and the semester is never sent as "all"; with the filters as
    the page starts with, no parameter is sent. *)
Theorem resource_params_sound (q sem sub k v : string) :
  resource_params q sem sub !! k = Some v ->
  v <> "" /\
  ((k = "title" /\ v = q) \/
   (k = "semester" /\ v = sem /\ v <> "all") \/
   (k = "subject" /\ v = sub)) /\
  resource_params "" "all" "" = ∅.
Proof.
  unfold resource_params. intros Hk. split; [| split; [| done]];
    revert Hk;
    destruct (JS.truthy q) eqn:Hq;
    destruct (JS.truthy sem && negb (sem =? "all")%string) eqn:Hsem;
    destruct (JS.truthy sub) eqn:Hsub;
    repeat (rewrite lookup_insert; case_decide);
    rewrite ?lookup_empty; intros Hv; simplify_eq;
    try apply andb_true_iff in Hsem as [Hsem1 Hsem2];
    try apply negb_true_iff, String.eqb_neq in Hsem2;
    first [ by intros -> | by auto 6 ].
Qed.

Lemma resource_params_sound_witness :
  resource_params "algebra" "3" "" !! "semester" = Some "3" /\
  "3" <> "" /\
  (("semester" = "title" /\ "3" = "algebra") \/
   ("semester" = "semester" /\ "3" = "3" /\ "3" <> "all") \/
   ("semester" = "subject" /\ "3" = "")).
Proof.
  split; [reflexivity |].
  destruct (resource_params_sound "algebra" "3" "" "semester" "3" eq_refl)
    as (H1 & H2 & _).
  by split.
Defined.

(** ** Signup *)

(** X25. Whatever [handleSignup] submits has passed validation, and is
    either a student registration carrying a non-empty student id and a
    non-empty department, or an administrator registration carrying
    neither, even when those fields of the form were filled in; its
    password has at least eight characters and equals the confirmation. *)
Theorem submitted_signup_shape (is_email : string -> bool)
    (f : Signup.Form) (p : Signup.Payload) :
  Signup.submitted is_email f = Some p ->
  ((Signup.p_role p = "student" /\
    exists sid dep,
      Signup.p_student_id p = Some sid /\ sid <> "" /\
      Signup.p_department p = Some dep /\ dep <> "")
   \/ (Signup.p_role p = "admin" /\
       Signup.p_student_id p = None /\ Signup.p_department p = None)) /\
  (8 <= String.length (Signup.p_password p))%nat /\
  Signup.p_password p = Signup.confirmPassword f /\
  is_email (Signup.p_email p) = true.
Proof.
  unfold Signup.submitted, Signup.schema_ok. intros H.
  destruct (_ && _) eqn:Hok in H; [| done]. simplify_eq.
  repeat (apply andb_true_iff in Hok as [Hok ?]).
  unfold Signup.password_ok in *.
  repeat match goal with
         | H : _ && _ = true |- _ => apply andb_true_iff in H as [H ?]
         end.
  cbn [Signup.payload_of Signup.p_role Signup.p_student_id
       Signup.p_department Signup.p_password Signup.p_email].
  split; [| split; [by apply Nat.leb_le | split; [by apply String.eqb_eq |
                                                   done]]].
  destruct (String.eqb_spec (Signup.role f) "student") as [Hs | Hs].
  - left. split; [done |].
    exists (Signup.student_id f), (Signup.department f).
    destruct (Signup.student_id f); [done |].
    by destruct (Signup.department f).
  - right. split; [| done].
    by destruct (String.eqb_spec (Signup.role f) "admin").
Qed.

Lemma submitted_signup_shape_witness :
  Signup.submitted (fun _ => true) student_form
    = Some (Signup.payload_of student_form) /\
  ((Signup.p_role (Signup.payload_of student_form) = "student" /\
    exists sid dep,
      Signup.p_student_id (Signup.payload_of student_form) = Some sid /\
      sid <> "" /\
      Signup.p_department (Signup.payload_of student_form) = Some dep /\
      dep <> "")
   \/ (Signup.p_role (Signup.payload_of student_form) = "admin" /\
       Signup.p_student_id (Signup.payload_of student_form) = None /\
       Signup.p_department (Signup.payload_of student_form) = None)).
Proof.
  split; [reflexivity |].
  by apply (submitted_signup_shape (fun _ => true) student_form
              (Signup.payload_of student_form)).
Defined.
